(** * L3 master device core (net/l3mdev/l3mdev.c)

    A shallow embedding of the handler registry, the master/slave
    resolver and the flow rewriter of [l3mdev.c], with the properties the
    specification states about them.

    Conventions.
    - C [int], [u32] and [enum l3mdev_type] values are [Z].  The functions
      compare, store and return them; the only operations are the negation
      of an errno and the bitwise or of a flag into the flag word
      ([Z.lor], which stays within the width of its operands), so no
      wrap-around arises.
    - A function pointer is its address, a [Z]; [NULL] is [0].  What the
      pointed-to callback computes is given by a code table
      [code : fnptr -> net -> Z -> Z].
    - The handler array is a [list l3mdev_handler] of [L3MDEV_TYPE_MAX + 1]
      slots, read with [!!!] and written with [<[ _ := _ ]>].
    - Constants and helpers that live in headers outside the file
      ([L3MDEV_TYPE_MAX], [EINVAL], [EBUSY], [FLOWI_FLAG_SKIP_NH_OIF], the
      device model) are fields of the classes [KernelConsts] and
      [DeviceModel]; every definition and theorem is stated for an
      arbitrary instance. *)

From Stdlib Require Import ZArith Lia Bool.
From stdpp Require Import base list.

Open Scope Z_scope.

(** ** Function pointers *)

Definition fnptr := Z.
Definition NULL : fnptr := 0.

(** ** Handler registry: data *)

(** [struct l3mdev_handler]. *)
Record l3mdev_handler := mk_handler {
  l3type : Z;
  dev_ifindex_lookup_by_table_id : fnptr
}.

(** A slot as the zero initialiser [{ 0, }] leaves it. *)
Definition zero_handler : l3mdev_handler :=
  {| l3type := 0; dev_ifindex_lookup_by_table_id := NULL |}.

#[global] Instance l3mdev_handler_inhabited : Inhabited l3mdev_handler :=
  populate zero_handler.

(** Modelled from the spec: the enumerator [L3MDEV_TYPE_UNSPEC] is declared
    in a header; "the zero value means unspecified". *)
Definition L3MDEV_TYPE_UNSPEC : Z := 0.

(** One call of a registered callback, as observed by the caller. *)
Record invocation (net : Type) := mk_invocation {
  inv_fn : fnptr;
  inv_net : net;
  inv_table_id : Z
}.
Arguments mk_invocation {net} _ _ _.
Arguments inv_fn {net} _.
Arguments inv_net {net} _.
Arguments inv_table_id {net} _.

(** ** What the headers provide *)

(** Constants of [l3mdev.h], [errno-base.h] and [flow.h]. *)
Class KernelConsts := {
  L3MDEV_TYPE_MAX : Z;
  EINVAL : Z;
  EBUSY : Z;
  FLOWI_FLAG_SKIP_NH_OIF : Z
}.

(** The code each callback address points to. *)
Class CallbackTable (net : Type) := code : fnptr -> net -> Z -> Z.

(** The device model of [netdevice.h]: [dev] is a non-null
    [struct net_device *], a nullable one is an [option dev]. *)
Class DeviceModel (net dev : Type) := {
  ifindex : dev -> Z;
  netif_is_l3_master : dev -> bool;
  netif_is_l3_slave : dev -> bool;
  netdev_master_upper_dev_get_rcu : dev -> option dev;
  netdev_master_upper_dev_get : dev -> option dev;
  dev_get_by_index_rcu : net -> Z -> option dev
}.

(** ** Handler registry: operations *)

Section Registry.

Context `{KernelConsts} {net : Type} `{CallbackTable net}.

(** [static struct l3mdev_handler l3mdev_handlers[L3MDEV_TYPE_MAX + 1] = { 0, };] *)
Definition l3mdev_handlers_init : list l3mdev_handler :=
  replicate (Z.to_nat (L3MDEV_TYPE_MAX + 1)) zero_handler.

(** The array keeps its declared size. *)
Definition handlers_wf (hs : list l3mdev_handler) : Prop :=
  length hs = Z.to_nat (L3MDEV_TYPE_MAX + 1).

Definition l3mdev_check_type (ty : Z) : Z :=
  if (ty <=? L3MDEV_TYPE_UNSPEC) || (ty >? L3MDEV_TYPE_MAX)
  then - EINVAL
  else 0.

(** The statements between [spin_lock] and [spin_unlock] run atomically
    with respect to the array, so a call is a function of the array. *)
Definition l3mdev_table_lookup_register (ty : Z) (fn : fnptr)
    (hs : list l3mdev_handler) : Z * list l3mdev_handler :=
  let res := l3mdev_check_type ty in
  if negb (res =? 0) then (res, hs)
  else
    let hdlr := hs !!! Z.to_nat ty in
    if negb (hdlr.(l3type) =? L3MDEV_TYPE_UNSPEC)
       || negb (hdlr.(dev_ifindex_lookup_by_table_id) =? NULL)
    then (- EBUSY, hs)
    else (0, <[Z.to_nat ty :=
                 {| l3type := ty;
                    dev_ifindex_lookup_by_table_id := fn |}]> hs).

(** The array part of unregister, up to [spin_unlock]; the two waits that
    follow do not touch the array (they are modelled in section [Rcu]). *)
Definition l3mdev_table_lookup_unregister (ty : Z) (fn : fnptr)
    (hs : list l3mdev_handler) : Z * list l3mdev_handler :=
  let res := l3mdev_check_type ty in
  if negb (res =? 0) then (res, hs)
  else
    let hdlr := hs !!! Z.to_nat ty in
    if negb (hdlr.(l3type) =? ty)
       || negb (hdlr.(dev_ifindex_lookup_by_table_id) =? fn)
    then (- EINVAL, hs)
    else (0, <[Z.to_nat ty :=
                 {| l3type := L3MDEV_TYPE_UNSPEC;
                    dev_ifindex_lookup_by_table_id := NULL |}]> hs).

(** Returns the value and the callback invocations performed. *)
Definition l3mdev_ifindex_lookup_by_table_id (n : net) (table_id : Z)
    (ty : Z) (hs : list l3mdev_handler) : Z * list (invocation net) :=
  let ifindex := - EINVAL in
  let res := l3mdev_check_type ty in
  if negb (res =? 0) then (res, [])
  else
    let hdlr := hs !!! Z.to_nat ty in
    let lookup := hdlr.(dev_ifindex_lookup_by_table_id) in
    if lookup =? NULL then (ifindex, [])
    else (code lookup n table_id, [mk_invocation lookup n table_id]).

End Registry.

(** ** Master/slave resolver *)

Section Resolver.

Context {net dev : Type} `{DeviceModel net dev}.

Definition l3mdev_master_ifindex_rcu (dev_ : option dev) : Z :=
  match dev_ with
  | None => 0
  | Some d =>
      if netif_is_l3_master d then ifindex d
      else if netif_is_l3_slave d then
        match netdev_master_upper_dev_get_rcu d with
        | Some master => ifindex master
        | None => 0
        end
      else 0
  end.

(** The loop [while (dev && !netif_is_l3_master(dev)) dev = upper(dev);]
    run for at most [fuel] iterations of its body: [Some dev'] is the value
    of [dev] when the loop exits, [None] means the loop is still running
    after [fuel] iterations. *)
Fixpoint master_upper_walk (fuel : nat) (dev_ : option dev)
    : option (option dev) :=
  match dev_ with
  | None => Some None
  | Some d =>
      if netif_is_l3_master d then Some (Some d)
      else
        match fuel with
        | O => None
        | S fuel' => master_upper_walk fuel' (netdev_master_upper_dev_get d)
        end
  end.

Definition l3mdev_master_upper_ifindex_by_index_rcu (fuel : nat) (n : net)
    (ifindex_ : Z) : option Z :=
  match master_upper_walk fuel (dev_get_by_index_rcu n ifindex_) with
  | None => None
  | Some (Some d) => Some (ifindex d)
  | Some None => Some 0
  end.

(** The device reached after [k] hops along the master relation. *)
Fixpoint nth_upper (k : nat) (dev_ : option dev) : option dev :=
  match k with
  | O => dev_
  | S k' =>
      match dev_ with
      | None => None
      | Some d => nth_upper k' (netdev_master_upper_dev_get d)
      end
  end.

(** The first [k] devices of the chain exist and none is an L3 master. *)
Definition no_master_before (k : nat) (dev_ : option dev) : Prop :=
  forall j : nat, (j < k)%nat ->
    exists d, nth_upper j dev_ = Some d /\ netif_is_l3_master d = false.

End Resolver.

(** ** Flow rewriter *)

(** [struct flowi], restricted to the members this file touches; every
    other member is kept in [flowi_rest]. *)
Record flowi (rest : Type) := mk_flowi {
  flowi_oif : Z;
  flowi_iif : Z;
  flowi_flags : Z;
  flowi_rest : rest
}.
Arguments mk_flowi {rest} _ _ _ _.
Arguments flowi_oif {rest} _.
Arguments flowi_iif {rest} _.
Arguments flowi_flags {rest} _.
Arguments flowi_rest {rest} _.

Section Flow.

Context `{KernelConsts} {net dev : Type} `{DeviceModel net dev} {rest : Type}.

(** The statements from [if (fl->flowi_iif)] down to the label [out]. *)
Definition update_flow_iif (n : net) (fl : flowi rest) : flowi rest :=
  if negb (flowi_iif fl =? 0) then
    match dev_get_by_index_rcu n (flowi_iif fl) with
    | Some d =>
        let ifindex_ := l3mdev_master_ifindex_rcu (Some d) in
        if negb (ifindex_ =? 0) then
          {| flowi_oif := flowi_oif fl;
             flowi_iif := ifindex_;
             flowi_flags := Z.lor (flowi_flags fl) FLOWI_FLAG_SKIP_NH_OIF;
             flowi_rest := flowi_rest fl |}
        else fl
    | None => fl
    end
  else fl.

(** The flow is passed by pointer and updated in place: the result is the
    flow the caller holds after the call. *)
Definition l3mdev_update_flow (n : net) (fl : flowi rest) : flowi rest :=
  if negb (flowi_oif fl =? 0) then
    match dev_get_by_index_rcu n (flowi_oif fl) with
    | Some d =>
        let ifindex_ := l3mdev_master_ifindex_rcu (Some d) in
        if negb (ifindex_ =? 0) then
          (* goto out *)
          {| flowi_oif := ifindex_;
             flowi_iif := flowi_iif fl;
             flowi_flags := Z.lor (flowi_flags fl) FLOWI_FLAG_SKIP_NH_OIF;
             flowi_rest := flowi_rest fl |}
        else update_flow_iif n fl
    | None => update_flow_iif n fl
    end
  else update_flow_iif n fl.

(** The flag bit is set in a flag word. *)
Definition skip_nh_oif_set (flags : Z) : Prop :=
  Z.land flags FLOWI_FLAG_SKIP_NH_OIF = FLOWI_FLAG_SKIP_NH_OIF.

(** A handle resolves to a governing master. *)
Definition resolves_to_master (n : net) (handle : Z) : option Z :=
  if negb (handle =? 0) then
    match dev_get_by_index_rcu n handle with
    | Some d =>
        let m := l3mdev_master_ifindex_rcu (Some d) in
        if negb (m =? 0) then Some m else None
    | None => None
    end
  else None.

End Flow.

(** ** Lookups running concurrently with one unregister call *)

(** One observed callback invocation: which thread made it and for which
    domain type the lookup was. *)
Record lookup_event (net : Type) := mk_lookup_event {
  ev_thread : nat;
  ev_type : Z;
  ev_call : invocation net
}.
Arguments mk_lookup_event {net} _ _ _.
Arguments ev_thread {net} _.
Arguments ev_type {net} _.
Arguments ev_call {net} _.

(** Where a thread stands in [l3mdev_ifindex_lookup_by_table_id]. *)
Inductive reader (net : Type) : Type :=
| RIdle
    (* not inside the function *)
| RLocked (n : net) (table_id ty : Z)
    (* after [rcu_read_lock], before [rcu_dereference] *)
| RLoaded (n : net) (table_id ty : Z) (lookup : fnptr)
    (* [lookup] read and found non-null, before [lookup(net, table_id)] *)
| RUnlock (ifindex_ : Z).
    (* at the label [unlock], before [rcu_read_unlock] *)
Arguments RIdle {net}.
Arguments RLocked {net} _ _ _.
Arguments RLoaded {net} _ _ _ _.
Arguments RUnlock {net} _.

(** Where the thread running [l3mdev_table_lookup_unregister] stands. *)
Inductive unregister_pc : Type :=
| UCall
    (* at entry *)
| USynchronize
    (* slot cleared and lock released, before [synchronize_rcu] *)
| UGrace (pending : list nat)
    (* inside [synchronize_rcu], waiting for the threads in [pending] *)
| UBarrier
    (* before [rcu_barrier] *)
| UReturned (res : Z).

Record system (net : Type) := mk_system {
  sys_handlers : list l3mdev_handler;
  sys_readers : list (reader net);
  sys_unregister : unregister_pc
}.
Arguments mk_system {net} _ _ _.
Arguments sys_handlers {net} _.
Arguments sys_readers {net} _.
Arguments sys_unregister {net} _.

(** What the scheduler may pick next. *)
Inductive action (net : Type) : Type :=
| ALookupCall (t : nat) (n : net) (table_id ty : Z)
    (* thread [t] enters the lookup function, up to [rcu_read_lock] *)
| ALookupStep (t : nat)
    (* thread [t] runs its next statement of the lookup function *)
| AUnregisterStep
    (* the unregistering thread runs its next statement *)
| ARegister (ty : Z) (fn : fnptr)
    (* some other thread runs a whole [l3mdev_table_lookup_register] *)
| AUnregister (ty : Z) (fn : fnptr).
    (* some other thread runs the locked part of an unregister *)
Arguments ALookupCall {net} _ _ _ _.
Arguments ALookupStep {net} _.
Arguments AUnregisterStep {net}.
Arguments ARegister {net} _ _.
Arguments AUnregister {net} _ _.

Section Rcu.

Context `{KernelConsts} {net : Type} `{CallbackTable net}.

(** The unregister call under study: [l3mdev_table_lookup_unregister(uty, ufn)]. *)
Variable uty : Z.
Variable ufn : fnptr.

(** Between [rcu_read_lock] and [rcu_read_unlock]. *)
Definition in_read_section (r : reader net) : bool :=
  match r with
  | RIdle => false
  | _ => true
  end.

(** The threads inside a read-side critical section, numbered from [t]. *)
Fixpoint read_sections_from (t : nat) (rs : list (reader net)) : list nat :=
  match rs with
  | [] => []
  | r :: rs' =>
      if in_read_section r then t :: read_sections_from (S t) rs'
      else read_sections_from (S t) rs'
  end.

(** Modelled from the spec: [synchronize_rcu] is kernel code outside this
    file; it is "a wait for all read-side critical sections active at the
    time of the clear to have exited".  Entering it records the threads
    that are inside a read-side critical section; each [rcu_read_unlock]
    strikes its thread off; it returns once none is left. *)
Definition synchronize_rcu_enter (rs : list (reader net)) : unregister_pc :=
  UGrace (read_sections_from 0 rs).

(** Modelled from the spec: [rcu_read_unlock] is kernel code outside this
    file; leaving the read-side critical section ends the wait of a
    [synchronize_rcu] for this thread and has no other effect. *)
Definition rcu_read_unlock (t : nat) (pc : unregister_pc) : unregister_pc :=
  match pc with
  | UGrace pending => UGrace (filter (fun t' => t' <> t) pending)
  | _ => pc
  end.

(** One scheduling step: the next state and the invocations made, or
    [None] when the chosen thread cannot move (it is blocked, has returned,
    or does not exist).  [rcu_read_lock] and [rcu_dereference] are the entry
    into the read section and a plain read of the pointer; [rcu_barrier]
    waits for deferred callbacks, of which this file queues none. *)
Definition step (a : action net) (s : system net)
    : option (system net * list (lookup_event net)) :=
  match a with
  | ALookupCall t n table_id ty =>
      match sys_readers s !! t with
      | Some RIdle =>
          if negb (l3mdev_check_type ty =? 0) then Some (s, [])
          else Some (mk_system (sys_handlers s)
                       (<[t := RLocked n table_id ty]> (sys_readers s))
                       (sys_unregister s), [])
      | _ => None
      end
  | ALookupStep t =>
      match sys_readers s !! t with
      | Some (RLocked n table_id ty) =>
          let hdlr := sys_handlers s !!! Z.to_nat ty in
          let lookup := hdlr.(dev_ifindex_lookup_by_table_id) in
          let r := if lookup =? NULL then RUnlock (- EINVAL)
                   else RLoaded n table_id ty lookup in
          Some (mk_system (sys_handlers s) (<[t := r]> (sys_readers s))
                  (sys_unregister s), [])
      | Some (RLoaded n table_id ty lookup) =>
          Some (mk_system (sys_handlers s)
                  (<[t := RUnlock (code lookup n table_id)]> (sys_readers s))
                  (sys_unregister s),
                [mk_lookup_event t ty (mk_invocation lookup n table_id)])
      | Some (RUnlock _) =>
          Some (mk_system (sys_handlers s) (<[t := RIdle]> (sys_readers s))
                  (rcu_read_unlock t (sys_unregister s)), [])
      | _ => None
      end
  | AUnregisterStep =>
      match sys_unregister s with
      | UCall =>
          let '(res, hs) :=
            l3mdev_table_lookup_unregister uty ufn (sys_handlers s) in
          Some (mk_system hs (sys_readers s)
                  (if res =? 0 then USynchronize else UReturned res), [])
      | USynchronize =>
          Some (mk_system (sys_handlers s) (sys_readers s)
                  (synchronize_rcu_enter (sys_readers s)), [])
      | UGrace [] =>
          Some (mk_system (sys_handlers s) (sys_readers s) UBarrier, [])
      | UGrace (_ :: _) => None
      | UBarrier =>
          Some (mk_system (sys_handlers s) (sys_readers s) (UReturned 0), [])
      | UReturned _ => None
      end
  | ARegister ty fn =>
      Some (mk_system (l3mdev_table_lookup_register ty fn (sys_handlers s)).2
              (sys_readers s) (sys_unregister s), [])
  | AUnregister ty fn =>
      Some (mk_system (l3mdev_table_lookup_unregister ty fn (sys_handlers s)).2
              (sys_readers s) (sys_unregister s), [])
  end.

(** Run a schedule, collecting the invocations in order. *)
Fixpoint run (sched : list (action net)) (s : system net)
    : option (system net * list (lookup_event net)) :=
  match sched with
  | [] => Some (s, [])
  | a :: sched' =>
      match step a s with
      | None => None
      | Some (s', evs) =>
          match run sched' s' with
          | None => None
          | Some (s'', evs') => Some (s'', evs ++ evs')
          end
      end
  end.

(** The action registers [ufn] for [uty]. *)
Definition registers_again (a : action net) : bool :=
  match a with
  | ARegister ty fn => (ty =? uty) && (fn =? ufn)
  | _ => false
  end.

(** The event is an invocation of [ufn] by a lookup for [uty]. *)
Definition invokes_removed (e : lookup_event net) : bool :=
  (ev_type e =? uty) && (inv_fn (ev_call e) =? ufn).

(** The thread is about to call [ufn] in a lookup for [uty]. *)
Definition holds_removed (r : reader net) : bool :=
  match r with
  | RLoaded _ _ ty lookup => (ty =? uty) && (lookup =? ufn)
  | _ => false
  end.

End Rcu.

(** ** Vocabulary of the specification *)

Section RegistrySpec.

Context `{KernelConsts}.

(** A tag [register] accepts: above "unspecified", at most the maximum. *)
Definition valid_type (ty : Z) : Prop :=
  L3MDEV_TYPE_UNSPEC < ty <= L3MDEV_TYPE_MAX.

(** The error names of the specification and the value the C functions
    return for each; [InvalidTag] and [NotRegistered] share [-EINVAL]. *)
Inductive registry_error : Type :=
| InvalidTag
| AlreadyRegistered
| NotRegistered.

Definition errno_of (e : registry_error) : Z :=
  match e with
  | InvalidTag => - EINVAL
  | AlreadyRegistered => - EBUSY
  | NotRegistered => - EINVAL
  end.

(** A slot nobody registered in. *)
Definition empty_slot (h : l3mdev_handler) : Prop :=
  l3type h = L3MDEV_TYPE_UNSPEC /\ dev_ifindex_lookup_by_table_id h = NULL.

(** A slot's callback is non-null exactly when its stored tag is its own
    index. *)
Definition slot_registered_iff_own_tag (i : nat) (h : l3mdev_handler) : Prop :=
  dev_ifindex_lookup_by_table_id h <> NULL <-> l3type h = Z.of_nat i.

(** The invariant over every slot of the array, index 0 included. *)
Definition registry_invariant_all_slots (hs : list l3mdev_handler) : Prop :=
  forall (i : nat) (h : l3mdev_handler),
    hs !! i = Some h -> slot_registered_iff_own_tag i h.

(** The invariant over the slots a valid tag selects. *)
Definition registry_invariant (hs : list l3mdev_handler) : Prop :=
  forall (i : nat) (h : l3mdev_handler),
    hs !! i = Some h -> valid_type (Z.of_nat i) ->
    slot_registered_iff_own_tag i h.

End RegistrySpec.

Section ResolverSpec.

Context {net dev : Type} `{DeviceModel net dev}.

(** "is-master, is-slave -- mutually exclusive". *)
Definition flags_exclusive (d : dev) : Prop :=
  ~ (netif_is_l3_master d = true /\ netif_is_l3_slave d = true).

(** The index service returns the device that carries the index asked
    for. *)
Definition index_consistent : Prop :=
  forall (n : net) (i : Z) (d : dev),
    dev_get_by_index_rcu n i = Some d -> ifindex d = i.

(** "Domain slave: a device enslaved to exactly one domain master": the
    immediate master of a slave found in a namespace is an L3 master that
    the namespace resolves by its own index. *)
Definition slaves_have_l3_masters : Prop :=
  forall (n : net) (i : Z) (d m : dev),
    dev_get_by_index_rcu n i = Some d ->
    netif_is_l3_master d = false ->
    netif_is_l3_slave d = true ->
    netdev_master_upper_dev_get_rcu d = Some m ->
    exists m', dev_get_by_index_rcu n (ifindex m) = Some m'
               /\ netif_is_l3_master m' = true.

End ResolverSpec.

Section RcuSpec.

Context `{KernelConsts} {net : Type}.

Variable uty : Z.
Variable ufn : fnptr.

(** The unregistering thread has cleared the slot: it is past the locked
    section of a call that did not fail. *)
Definition cleared (pc : unregister_pc) : bool :=
  match pc with
  | UCall => false
  | UReturned res => res =? 0
  | _ => true
  end.

(** The unregistering thread cannot return before thread [t] leaves its
    current read-side critical section. *)
Definition awaited (t : nat) (pc : unregister_pc) : Prop :=
  match pc with
  | USynchronize => True
  | UGrace pending => t ∈ pending
  | _ => False
  end.

(** What holds from the clear on: the slot of [uty] no longer yields [ufn]
    to a reader, and a thread still about to call [ufn] for [uty] is one
    the unregistering thread has to wait for. *)
Definition grace_invariant (s : system net) : Prop :=
  valid_type uty
  /\ (dev_ifindex_lookup_by_table_id (sys_handlers s !!! Z.to_nat uty) = ufn ->
      ufn = NULL)
  /\ (forall (t : nat) (r : reader net),
        sys_readers s !! t = Some r ->
        holds_removed uty ufn r = true ->
        awaited t (sys_unregister s)).

(** No action of the schedule registers [ufn] for [uty]. *)
Definition never_registers_again (sched : list (action net)) : Prop :=
  forall a : action net, a ∈ sched -> registers_again uty ufn a = false.

End RcuSpec.

(** ** Concrete instances used to exercise the definitions *)

(** The values of the headers: one domain type (VRF), Linux errnos, and
    the flow flag [0x04]. *)
Definition linux_consts : KernelConsts :=
  {| L3MDEV_TYPE_MAX := 1; EINVAL := 22; EBUSY := 16;
     FLOWI_FLAG_SKIP_NH_OIF := 4 |}.

(** A single callback at address 77 with [f(ns, 7) = 42]. *)
Definition demo_code : CallbackTable unit :=
  fun fn _ table_id => if (fn =? 77) && (table_id =? 7) then 42 else 0.

(** Devices named by their index: 42 is an L3 master, 5 is its slave, 9 is
    an ordinary device. *)
Definition demo_devices : DeviceModel unit Z :=
  {| ifindex := fun d => d;
     netif_is_l3_master := fun d => d =? 42;
     netif_is_l3_slave := fun d => d =? 5;
     netdev_master_upper_dev_get_rcu := fun d => if d =? 5 then Some 42 else None;
     netdev_master_upper_dev_get := fun d => if d =? 5 then Some 42 else None;
     dev_get_by_index_rcu := fun _ i =>
       if (i =? 5) || (i =? 9) || (i =? 42) then Some i else None |}.

(** A device model whose master relation is cyclic: device 1 is no L3
    master and is its own upper device. *)
Definition looping_devices : DeviceModel unit Z :=
  {| ifindex := fun d => d;
     netif_is_l3_master := fun _ => false;
     netif_is_l3_slave := fun _ => true;
     netdev_master_upper_dev_get_rcu := fun d => Some d;
     netdev_master_upper_dev_get := fun d => Some d;
     dev_get_by_index_rcu := fun _ i => if i =? 1 then Some 1 else None |}.

(** A two-level hierarchy: 5 is an L3 slave whose master 42 is itself an L3
    slave (and no L3 master) of 100. *)
Definition stacked_devices : DeviceModel unit Z :=
  {| ifindex := fun d => d;
     netif_is_l3_master := fun d => d =? 100;
     netif_is_l3_slave := fun d => (d =? 5) || (d =? 42);
     netdev_master_upper_dev_get_rcu := fun d =>
       if d =? 5 then Some 42 else if d =? 42 then Some 100 else None;
     netdev_master_upper_dev_get := fun d =>
       if d =? 5 then Some 42 else if d =? 42 then Some 100 else None;
     dev_get_by_index_rcu := fun _ i =>
       if (i =? 5) || (i =? 42) || (i =? 100) then Some i else None |}.

(** The array after the VRF type registered the callback at 77. *)
Definition demo_handlers : list l3mdev_handler :=
  [zero_handler; {| l3type := 1; dev_ifindex_lookup_by_table_id := 77 |}].

(** Two idle threads, the callback 77 registered for type 1, and a thread
    about to call [unregister(1, 77)]. *)
Definition demo_system : system unit :=
  mk_system demo_handlers [RIdle; RIdle] UCall.

(** Thread 0 reads the callback, the slot is cleared, thread 1 reads the
    cleared slot, ... *)
Definition demo_until_clear : list (action unit) :=
  [ALookupCall 0 tt 7 1; ALookupStep 0; AUnregisterStep;
   ALookupCall 1 tt 7 1; ALookupStep 1].

(** ... [synchronize_rcu] is entered while both are in their read
    sections, thread 0 makes its call, both unlock, and only then do
    [synchronize_rcu], [rcu_barrier] and the call return. *)
Definition demo_until_return : list (action unit) :=
  [AUnregisterStep; ALookupStep 0; ALookupStep 0; ALookupStep 1;
   AUnregisterStep; AUnregisterStep].

(** A further complete lookup by thread 0. *)
Definition demo_after_return : list (action unit) :=
  [ALookupCall 0 tt 7 1; ALookupStep 0; ALookupStep 0].

(** The system once unregister has returned. *)
Definition demo_returned : system unit :=
  mk_system [zero_handler; zero_handler] [RIdle; RIdle] (UReturned 0).

(** ** Table identity, link-scope lookup and rule match *)

(** [struct flowi6], restricted to the member this file reads. *)
Record flowi6 (rest : Type) := mk_flowi6 {
  flowi6_oif : Z;
  flowi6_rest : rest
}.
Arguments mk_flowi6 {rest} _ _.
Arguments flowi6_oif {rest} _.
Arguments flowi6_rest {rest} _.

(** [struct fib_lookup_arg], restricted to the member this file writes. *)
Record fib_lookup_arg (rest : Type) := mk_fib_lookup_arg {
  table : Z;
  arg_rest : rest
}.
Arguments mk_fib_lookup_arg {rest} _ _.
Arguments table {rest} _.
Arguments arg_rest {rest} _.

(** The operation table [dev->l3mdev_ops] of [l3mdev.h]: each member is a
    function pointer that may be null; [fl6] and [dst] stand for
    [struct flowi6] and a non-null [struct dst_entry *]. *)
Class L3mdevOps (dev fl6 dst : Type) := {
  ops_l3mdev_fib_table : dev -> option (dev -> Z);
  ops_l3mdev_link_scope_lookup : dev -> option (dev -> fl6 -> option dst)
}.

Section Dispatcher.

Context {net dev rest6 dst restf resta : Type}.
Context `{DeviceModel net dev} `{L3mdevOps dev (flowi6 rest6) dst}.

Definition l3mdev_fib_table_rcu (dev_ : option dev) : Z :=
  let tb_id := 0 in
  match dev_ with
  | None => 0
  | Some d =>
      if netif_is_l3_master d then
        match ops_l3mdev_fib_table d with
        | Some fib_table => fib_table d
        | None => tb_id
        end
      else if netif_is_l3_slave d then
        match netdev_master_upper_dev_get_rcu d with
        | Some master =>
            match ops_l3mdev_fib_table master with
            | Some fib_table => fib_table master
            | None => tb_id
            end
        | None => tb_id
        end
      else tb_id
  end.

Definition l3mdev_fib_table_by_index (n : net) (ifindex_ : Z) : Z :=
  let tb_id := 0 in
  if ifindex_ =? 0 then 0
  else
    match dev_get_by_index_rcu n ifindex_ with
    | Some d => l3mdev_fib_table_rcu (Some d)
    | None => tb_id
    end.

(** [WARN_ON_ONCE] only logs; the returned pointer does not depend on it. *)
Definition l3mdev_link_scope_lookup (n : net) (fl6 : flowi6 rest6)
    : option dst :=
  if negb (flowi6_oif fl6 =? 0) then
    let dev_ := dev_get_by_index_rcu n (flowi6_oif fl6) in
    let dev_ :=
      match dev_ with
      | Some d =>
          if netif_is_l3_slave d then netdev_master_upper_dev_get_rcu d
          else Some d
      | None => None
      end in
    match dev_ with
    | Some d =>
        if netif_is_l3_master d then
          match ops_l3mdev_link_scope_lookup d with
          | Some link_scope_lookup => link_scope_lookup d fl6
          | None => None
          end
        else None
    | None => None
    end
  else None.

(** Returns [rc] and the lookup argument as the call leaves it. *)
Definition l3mdev_fib_rule_match (n : net) (fl : flowi restf)
    (arg : fib_lookup_arg resta) : Z * fib_lookup_arg resta :=
  let input_side :=
    match dev_get_by_index_rcu n (flowi_iif fl) with
    | Some d =>
        if netif_is_l3_master d then
          match ops_l3mdev_fib_table d with
          | Some fib_table =>
              (1, {| table := fib_table d; arg_rest := arg_rest arg |})
          | None => (0, arg)
          end
        else (0, arg)
    | None => (0, arg)
    end in
  match dev_get_by_index_rcu n (flowi_oif fl) with
  | Some d =>
      if netif_is_l3_master d then
        match ops_l3mdev_fib_table d with
        | Some fib_table =>
            (* goto out *)
            (1, {| table := fib_table d; arg_rest := arg_rest arg |})
        | None => input_side
        end
      else input_side
  | None => input_side
  end.

(** The immediate master of a slave found in a namespace is an L3 master
    that the namespace resolves, by its index, to that same device. *)
Definition masters_resolve : Prop :=
  forall (n : net) (i : Z) (d m : dev),
    dev_get_by_index_rcu n i = Some d ->
    netif_is_l3_master d = false ->
    netif_is_l3_slave d = true ->
    netdev_master_upper_dev_get_rcu d = Some m ->
    dev_get_by_index_rcu n (ifindex m) = Some m
    /\ netif_is_l3_master m = true.

(** The device at a handle is an L3 master with a table accessor. *)
Definition master_with_table (n : net) (handle : Z) : Prop :=
  exists d fib_table,
    dev_get_by_index_rcu n handle = Some d
    /\ netif_is_l3_master d = true
    /\ ops_l3mdev_fib_table d = Some fib_table.

End Dispatcher.

(** ** Sequences of registry calls *)

Inductive registry_call : Type :=
| CallRegister (ty : Z) (fn : fnptr)
| CallUnregister (ty : Z) (fn : fnptr).

Section RegistryCalls.

Context `{KernelConsts}.

Definition run_call (c : registry_call) (hs : list l3mdev_handler)
    : list l3mdev_handler :=
  match c with
  | CallRegister ty fn => (l3mdev_table_lookup_register ty fn hs).2
  | CallUnregister ty fn => (l3mdev_table_lookup_unregister ty fn hs).2
  end.

(** The array after the calls of [cs], made in order. *)
Definition run_calls (cs : list registry_call) (hs : list l3mdev_handler)
    : list l3mdev_handler :=
  fold_left (fun hs c => run_call c hs) cs hs.

(** What every slot of an array built by registry calls satisfies: the
    stored tag is "unspecified" or the slot's own index, a callback is
    stored only under the slot's own index, and slot 0 is as initialised. *)
Definition slot_shape (i : nat) (h : l3mdev_handler) : Prop :=
  (l3type h = L3MDEV_TYPE_UNSPEC \/ l3type h = Z.of_nat i)
  /\ (dev_ifindex_lookup_by_table_id h <> NULL -> l3type h = Z.of_nat i)
  /\ (i = 0%nat -> h = zero_handler).

Definition registry_shape (hs : list l3mdev_handler) : Prop :=
  handlers_wf hs
  /\ forall (i : nat) (h : l3mdev_handler), hs !! i = Some h -> slot_shape i h.

End RegistryCalls.

(** Table accessors and link-scope accessors for [demo_devices]: the master
    42 uses table 7 and answers link-scope lookups with destination 1000
    plus the output interface of the flow. *)
Definition demo_ops : L3mdevOps Z (flowi6 unit) Z :=
  {| ops_l3mdev_fib_table := fun d =>
       if d =? 42 then Some (fun _ => 7) else None;
     ops_l3mdev_link_scope_lookup := fun d =>
       if d =? 42 then Some (fun _ fl6 => Some (1000 + flowi6_oif fl6))
       else None |}.

(** * Properties *)

(** ** Handler registry *)

Section RegistryFacts.

Context `{KernelConsts} {net : Type} `{CallbackTable net}.

Lemma check_type_valid (ty : Z) :
  valid_type ty -> l3mdev_check_type ty = 0.
Proof.
  unfold valid_type, l3mdev_check_type, L3MDEV_TYPE_UNSPEC. intros [Hlo Hhi].
  destruct (Z.leb_spec ty 0); [lia|].
  destruct (Z.gtb_spec ty L3MDEV_TYPE_MAX); [lia|]. reflexivity.
Qed.

Lemma check_type_invalid (ty : Z) :
  ~ valid_type ty -> l3mdev_check_type ty = - EINVAL.
Proof.
  unfold valid_type, l3mdev_check_type, L3MDEV_TYPE_UNSPEC. intros Hn.
  destruct (Z.leb_spec ty 0); [reflexivity|].
  destruct (Z.gtb_spec ty L3MDEV_TYPE_MAX); [reflexivity|]. lia.
Qed.

Lemma check_type_cases (ty : Z) :
  (valid_type ty /\ l3mdev_check_type ty = 0)
  \/ (~ valid_type ty /\ l3mdev_check_type ty = - EINVAL).
Proof.
  destruct (decide (L3MDEV_TYPE_UNSPEC < ty <= L3MDEV_TYPE_MAX)) as [Hv|Hv].
  - left. split; [exact Hv | apply check_type_valid, Hv].
  - right. split; [exact Hv | apply check_type_invalid, Hv].
Qed.

Lemma neg_errno_nonzero : EINVAL <> 0 -> (- EINVAL =? 0) = false.
Proof. intros HE. apply Z.eqb_neq. lia. Qed.

(** A failed [register] returns the array it was given. *)
Lemma register_failure_keeps (ty : Z) (fn : fnptr) (hs : list l3mdev_handler) :
  (l3mdev_table_lookup_register ty fn hs).1 <> 0 ->
  (l3mdev_table_lookup_register ty fn hs).2 = hs.
Proof.
  unfold l3mdev_table_lookup_register.
  destruct (negb (l3mdev_check_type ty =? 0)); [reflexivity|].
  destruct (negb (_ =? L3MDEV_TYPE_UNSPEC) || negb (_ =? NULL));
    simpl; [reflexivity | congruence].
Qed.

(** A failed [unregister] returns the array it was given. *)
Lemma unregister_failure_keeps (ty : Z) (fn : fnptr) (hs : list l3mdev_handler) :
  (l3mdev_table_lookup_unregister ty fn hs).1 <> 0 ->
  (l3mdev_table_lookup_unregister ty fn hs).2 = hs.
Proof.
  unfold l3mdev_table_lookup_unregister.
  destruct (negb (l3mdev_check_type ty =? 0)); [reflexivity|].
  destruct (negb (_ =? ty) || negb (_ =? fn));
    simpl; [reflexivity | congruence].
Qed.

Lemma register_invalid (ty : Z) (fn : fnptr) (hs : list l3mdev_handler) :
  EINVAL <> 0 -> ~ valid_type ty ->
  l3mdev_table_lookup_register ty fn hs = (errno_of InvalidTag, hs).
Proof.
  intros HE Hv. unfold l3mdev_table_lookup_register.
  rewrite (check_type_invalid _ Hv), (neg_errno_nonzero HE). reflexivity.
Qed.

Lemma unregister_invalid (ty : Z) (fn : fnptr) (hs : list l3mdev_handler) :
  EINVAL <> 0 -> ~ valid_type ty ->
  l3mdev_table_lookup_unregister ty fn hs = (errno_of InvalidTag, hs).
Proof.
  intros HE Hv. unfold l3mdev_table_lookup_unregister.
  rewrite (check_type_invalid _ Hv), (neg_errno_nonzero HE). reflexivity.
Qed.

Lemma register_busy (ty : Z) (fn : fnptr) (hs : list l3mdev_handler) :
  valid_type ty ->
  l3type (hs !!! Z.to_nat ty) = ty
  \/ dev_ifindex_lookup_by_table_id (hs !!! Z.to_nat ty) <> NULL ->
  l3mdev_table_lookup_register ty fn hs = (errno_of AlreadyRegistered, hs).
Proof.
  intros Hv Hocc. unfold l3mdev_table_lookup_register.
  rewrite (check_type_valid _ Hv). simpl.
  destruct (Z.eqb_spec (l3type (hs !!! Z.to_nat ty)) L3MDEV_TYPE_UNSPEC) as [E1|E1];
    [|reflexivity].
  destruct (Z.eqb_spec (dev_ifindex_lookup_by_table_id (hs !!! Z.to_nat ty)) NULL)
    as [E2|E2]; [|reflexivity].
  exfalso. destruct Hocc as [Ht|Hf]; [|contradiction].
  unfold valid_type in Hv. lia.
Qed.

Lemma unregister_mismatch (ty : Z) (fn : fnptr) (hs : list l3mdev_handler) :
  EINVAL <> 0 ->
  l3type (hs !!! Z.to_nat ty) <> ty
  \/ dev_ifindex_lookup_by_table_id (hs !!! Z.to_nat ty) <> fn ->
  l3mdev_table_lookup_unregister ty fn hs = (errno_of NotRegistered, hs).
Proof.
  intros HE Hmis. unfold l3mdev_table_lookup_unregister.
  destruct (check_type_cases ty) as [[_ ->]|[_ ->]].
  - simpl.
    destruct (Z.eqb_spec (l3type (hs !!! Z.to_nat ty)) ty) as [E1|E1];
      [|reflexivity].
    destruct (Z.eqb_spec (dev_ifindex_lookup_by_table_id (hs !!! Z.to_nat ty)) fn)
      as [E2|E2]; [|reflexivity].
    exfalso. destruct Hmis; contradiction.
  - rewrite (neg_errno_nonzero HE). reflexivity.
Qed.

(** On an empty slot of a valid type [register] stores the pair. *)
Lemma register_empty (ty : Z) (fn : fnptr) (hs : list l3mdev_handler) :
  valid_type ty -> empty_slot (hs !!! Z.to_nat ty) ->
  l3mdev_table_lookup_register ty fn hs
  = (0, <[Z.to_nat ty := mk_handler ty fn]> hs).
Proof.
  intros Hv [E1 E2]. unfold l3mdev_table_lookup_register.
  rewrite (check_type_valid _ Hv), E1, E2. reflexivity.
Qed.

(** On a matching slot [unregister] clears the pair. *)
Lemma unregister_match (ty : Z) (fn : fnptr) (hs : list l3mdev_handler) :
  valid_type ty ->
  l3type (hs !!! Z.to_nat ty) = ty ->
  dev_ifindex_lookup_by_table_id (hs !!! Z.to_nat ty) = fn ->
  l3mdev_table_lookup_unregister ty fn hs
  = (0, <[Z.to_nat ty := mk_handler L3MDEV_TYPE_UNSPEC NULL]> hs).
Proof.
  intros Hv E1 E2. unfold l3mdev_table_lookup_unregister.
  rewrite (check_type_valid _ Hv), E1, E2, !Z.eqb_refl. reflexivity.
Qed.

(** Either call returns its input array or writes the slot of a valid
    tag. *)
Lemma register_shape (ty : Z) (fn : fnptr) (hs : list l3mdev_handler) :
  EINVAL <> 0 ->
  (l3mdev_table_lookup_register ty fn hs).2 = hs
  \/ (valid_type ty /\ empty_slot (hs !!! Z.to_nat ty)
      /\ l3mdev_table_lookup_register ty fn hs
         = (0, <[Z.to_nat ty := mk_handler ty fn]> hs)).
Proof.
  intros HE. destruct (check_type_cases ty) as [[Hv Hc]|[Hv Hc]].
  - destruct (Z.eq_dec (l3type (hs !!! Z.to_nat ty)) L3MDEV_TYPE_UNSPEC) as [E1|E1].
    + destruct (Z.eq_dec (dev_ifindex_lookup_by_table_id (hs !!! Z.to_nat ty)) NULL)
        as [E2|E2].
      * right. split; [exact Hv|]. split; [split; assumption|].
        apply register_empty; [exact Hv | split; assumption].
      * left. rewrite register_busy; auto.
    + left. unfold l3mdev_table_lookup_register. rewrite Hc. simpl.
      destruct (Z.eqb_spec (l3type (hs !!! Z.to_nat ty)) L3MDEV_TYPE_UNSPEC);
        [contradiction | reflexivity].
  - left. rewrite register_invalid; auto.
Qed.

Lemma unregister_shape (ty : Z) (fn : fnptr) (hs : list l3mdev_handler) :
  EINVAL <> 0 ->
  (l3mdev_table_lookup_unregister ty fn hs).2 = hs
  \/ (valid_type ty
      /\ l3type (hs !!! Z.to_nat ty) = ty
      /\ dev_ifindex_lookup_by_table_id (hs !!! Z.to_nat ty) = fn
      /\ l3mdev_table_lookup_unregister ty fn hs
         = (0, <[Z.to_nat ty := mk_handler L3MDEV_TYPE_UNSPEC NULL]> hs)).
Proof.
  intros HE. destruct (check_type_cases ty) as [[Hv Hc]|[Hv Hc]].
  - destruct (Z.eq_dec (l3type (hs !!! Z.to_nat ty)) ty) as [E1|E1].
    + destruct (Z.eq_dec (dev_ifindex_lookup_by_table_id (hs !!! Z.to_nat ty)) fn)
        as [E2|E2].
      * right. repeat (split; [assumption|]). apply unregister_match; assumption.
      * left. rewrite unregister_mismatch; auto.
    + left. rewrite unregister_mismatch; auto.
  - left. rewrite unregister_invalid; auto.
Qed.

(** Neither call changes the size of the array. *)
Lemma handlers_wf_preserved (ty : Z) (fn : fnptr) (hs : list l3mdev_handler) :
  handlers_wf hs ->
  handlers_wf (l3mdev_table_lookup_register ty fn hs).2
  /\ handlers_wf (l3mdev_table_lookup_unregister ty fn hs).2.
Proof.
  unfold handlers_wf, l3mdev_table_lookup_register,
    l3mdev_table_lookup_unregister. intros Hwf.
  split; destruct (negb (l3mdev_check_type ty =? 0)); simpl; try exact Hwf;
    destruct (_ || _); simpl; rewrite ?length_insert; exact Hwf.
Qed.

Lemma handlers_wf_init : handlers_wf l3mdev_handlers_init.
Proof. apply length_replicate. Qed.

(** A lookup for an invalid tag returns the result of the type check. *)
Lemma lookup_invalid (n : net) (table_id ty : Z) (hs : list l3mdev_handler) :
  EINVAL <> 0 -> ~ valid_type ty ->
  l3mdev_ifindex_lookup_by_table_id n table_id ty hs = (- EINVAL, []).
Proof.
  intros HE Hv. unfold l3mdev_ifindex_lookup_by_table_id.
  rewrite (check_type_invalid _ Hv), (neg_errno_nonzero HE). reflexivity.
Qed.

Lemma lookup_no_callback (n : net) (table_id ty : Z) (hs : list l3mdev_handler) :
  valid_type ty ->
  dev_ifindex_lookup_by_table_id (hs !!! Z.to_nat ty) = NULL ->
  l3mdev_ifindex_lookup_by_table_id n table_id ty hs = (- EINVAL, []).
Proof.
  intros Hv E. unfold l3mdev_ifindex_lookup_by_table_id.
  rewrite (check_type_valid _ Hv), E. reflexivity.
Qed.

Lemma lookup_callback (n : net) (table_id ty : Z) (hs : list l3mdev_handler) :
  valid_type ty ->
  dev_ifindex_lookup_by_table_id (hs !!! Z.to_nat ty) <> NULL ->
  l3mdev_ifindex_lookup_by_table_id n table_id ty hs
  = (code (dev_ifindex_lookup_by_table_id (hs !!! Z.to_nat ty)) n table_id,
     [mk_invocation (dev_ifindex_lookup_by_table_id (hs !!! Z.to_nat ty))
        n table_id]).
Proof.
  intros Hv E. unfold l3mdev_ifindex_lookup_by_table_id.
  rewrite (check_type_valid _ Hv). simpl.
  destruct (Z.eqb_spec (dev_ifindex_lookup_by_table_id (hs !!! Z.to_nat ty)) NULL);
    [contradiction | reflexivity].
Qed.

(** C2, as amended.  A lookup always returns a value.  For an invalid tag,
    and for a valid tag whose slot holds no callback, the value is the
    negative error code [-EINVAL] (not zero) and no callback is invoked;
    only when the slot of a valid tag holds a callback is that callback
    invoked, once, with the namespace and table id given, and its result
    returned. *)
Theorem lookup_result_cases (n : net) (table_id ty : Z)
    (hs : list l3mdev_handler) :
  EINVAL <> 0 ->
  (~ valid_type ty ->
     l3mdev_ifindex_lookup_by_table_id n table_id ty hs = (- EINVAL, []))
  /\ (valid_type ty ->
      dev_ifindex_lookup_by_table_id (hs !!! Z.to_nat ty) = NULL ->
      l3mdev_ifindex_lookup_by_table_id n table_id ty hs = (- EINVAL, []))
  /\ (valid_type ty ->
      forall cb : fnptr,
        dev_ifindex_lookup_by_table_id (hs !!! Z.to_nat ty) = cb ->
        cb <> NULL ->
        l3mdev_ifindex_lookup_by_table_id n table_id ty hs
        = (code cb n table_id, [mk_invocation cb n table_id])).
Proof.
  intros HE. split; [|split].
  - intros Hv. apply lookup_invalid; assumption.
  - intros Hv E. apply lookup_no_callback; assumption.
  - intros Hv cb E Hcb. subst cb. apply lookup_callback; assumption.
Qed.

(** C3.  For a valid tag whose slot is empty and a (non-null) callback
    [cb], [register] returns 0 and a lookup made right after, for any
    namespace and table id, invokes [cb] on them and returns what [cb]
    returns. *)
Theorem register_then_lookup (ty : Z) (cb : fnptr) (n : net) (table_id : Z)
    (hs : list l3mdev_handler) :
  valid_type ty ->
  cb <> NULL ->
  (exists h, hs !! Z.to_nat ty = Some h /\ empty_slot h) ->
  (l3mdev_table_lookup_register ty cb hs).1 = 0
  /\ l3mdev_ifindex_lookup_by_table_id n table_id ty
       (l3mdev_table_lookup_register ty cb hs).2
     = (code cb n table_id, [mk_invocation cb n table_id]).
Proof.
  intros Hv Hcb (h & Hh & Hempty).
  assert (Hslot : hs !!! Z.to_nat ty = h)
    by (apply list_lookup_total_correct; exact Hh).
  rewrite register_empty by (rewrite ?Hslot; assumption).
  split; [reflexivity|]. simpl.
  assert (Hnew : <[Z.to_nat ty := mk_handler ty cb]> hs !!! Z.to_nat ty
                 = mk_handler ty cb).
  { apply list_lookup_total_correct, list_lookup_insert_eq.
    apply lookup_lt_Some in Hh. exact Hh. }
  rewrite lookup_callback; rewrite ?Hnew; simpl; auto.
Qed.

(** C4.  [register] returns the [InvalidTag] code for a tag that is
    unspecified or above the maximum, and the [AlreadyRegistered] code when
    the slot of a valid tag already stores that tag or holds a callback;
    [unregister] returns the [NotRegistered] code when the slot's
    tag/callback pair differs from the pair given; and every [register] or
    [unregister] call that returns non-zero returns the array unchanged. *)
Theorem registry_errors (ty : Z) (fn : fnptr) (hs : list l3mdev_handler) :
  EINVAL <> 0 ->
  (ty <= L3MDEV_TYPE_UNSPEC \/ ty > L3MDEV_TYPE_MAX ->
     l3mdev_table_lookup_register ty fn hs = (errno_of InvalidTag, hs))
  /\ (valid_type ty ->
      l3type (hs !!! Z.to_nat ty) = ty
      \/ dev_ifindex_lookup_by_table_id (hs !!! Z.to_nat ty) <> NULL ->
      l3mdev_table_lookup_register ty fn hs
      = (errno_of AlreadyRegistered, hs))
  /\ ((l3type (hs !!! Z.to_nat ty),
       dev_ifindex_lookup_by_table_id (hs !!! Z.to_nat ty)) <> (ty, fn) ->
      l3mdev_table_lookup_unregister ty fn hs = (errno_of NotRegistered, hs))
  /\ ((l3mdev_table_lookup_register ty fn hs).1 <> 0 ->
      (l3mdev_table_lookup_register ty fn hs).2 = hs)
  /\ ((l3mdev_table_lookup_unregister ty fn hs).1 <> 0 ->
      (l3mdev_table_lookup_unregister ty fn hs).2 = hs).
Proof.
  intros HE. split; [|split; [|split; [|split]]].
  - intros Hbad. apply register_invalid; [exact HE|].
    unfold valid_type. lia.
  - intros Hv Hocc. apply register_busy; assumption.
  - intros Hne. apply unregister_mismatch; [exact HE|].
    destruct (Z.eq_dec (l3type (hs !!! Z.to_nat ty)) ty) as [E1|E1]; [|auto].
    destruct (Z.eq_dec (dev_ifindex_lookup_by_table_id (hs !!! Z.to_nat ty)) fn)
      as [E2|E2]; [|auto].
    exfalso. apply Hne. congruence.
  - apply register_failure_keeps.
  - apply unregister_failure_keeps.
Qed.

Lemma registry_invariant_init : registry_invariant l3mdev_handlers_init.
Proof.
  intros i h Hh Hv. unfold l3mdev_handlers_init in Hh.
  apply lookup_replicate in Hh as [-> _].
  unfold slot_registered_iff_own_tag, valid_type, L3MDEV_TYPE_UNSPEC in *.
  simpl. split; [intros Hn; contradiction | intros E; lia].
Qed.

Lemma registry_invariant_insert (ty : Z) (h : l3mdev_handler)
    (hs : list l3mdev_handler) :
  valid_type ty ->
  slot_registered_iff_own_tag (Z.to_nat ty) h ->
  registry_invariant hs ->
  registry_invariant (<[Z.to_nat ty := h]> hs).
Proof.
  intros Hv Hslot Hinv i h' Hh' Hvi.
  destruct (decide (i = Z.to_nat ty)) as [->|Hne].
  - assert (Hlt : (Z.to_nat ty < length hs)%nat).
    { apply lookup_lt_Some in Hh'. rewrite length_insert in Hh'. exact Hh'. }
    rewrite list_lookup_insert_eq in Hh' by exact Hlt.
    injection Hh' as <-. exact Hslot.
  - rewrite list_lookup_insert_ne in Hh' by congruence.
    apply (Hinv i h' Hh' Hvi).
Qed.

Lemma registry_invariant_register (ty : Z) (fn : fnptr)
    (hs : list l3mdev_handler) :
  EINVAL <> 0 -> fn <> NULL ->
  registry_invariant hs ->
  registry_invariant (l3mdev_table_lookup_register ty fn hs).2.
Proof.
  intros HE Hfn Hinv.
  destruct (register_shape ty fn hs HE) as [->|(Hv & _ & ->)]; [exact Hinv|].
  simpl. apply registry_invariant_insert; [exact Hv | | exact Hinv].
  unfold slot_registered_iff_own_tag, valid_type, L3MDEV_TYPE_UNSPEC in *.
  simpl. split; [intros _; lia | intros _; exact Hfn].
Qed.

Lemma registry_invariant_unregister (ty : Z) (fn : fnptr)
    (hs : list l3mdev_handler) :
  EINVAL <> 0 ->
  registry_invariant hs ->
  registry_invariant (l3mdev_table_lookup_unregister ty fn hs).2.
Proof.
  intros HE Hinv.
  destruct (unregister_shape ty fn hs HE) as [->|(Hv & _ & _ & ->)];
    [exact Hinv|].
  simpl. apply registry_invariant_insert; [exact Hv | | exact Hinv].
  unfold slot_registered_iff_own_tag, valid_type, L3MDEV_TYPE_UNSPEC in *.
  simpl. split; [intros Hn; contradiction | intros E; lia].
Qed.

(** C5, as amended.  For every slot whose index is a valid tag, the
    callback is non-null exactly when the stored tag is the slot's index:
    this holds of the initial array, and every [register] of a (non-null)
    callback and every [unregister], failing or not, preserves it.  A tag
    has one slot, and while that slot is registered any further [register]
    for the tag is refused with the array unchanged, so a tag never has two
    registrations. *)
Theorem registry_invariant_preserved :
  EINVAL <> 0 ->
  registry_invariant l3mdev_handlers_init
  /\ (forall (ty : Z) (fn : fnptr) (hs : list l3mdev_handler),
        fn <> NULL -> registry_invariant hs ->
        registry_invariant (l3mdev_table_lookup_register ty fn hs).2)
  /\ (forall (ty : Z) (fn : fnptr) (hs : list l3mdev_handler),
        registry_invariant hs ->
        registry_invariant (l3mdev_table_lookup_unregister ty fn hs).2)
  /\ (forall (ty : Z) (fn fn' : fnptr) (hs : list l3mdev_handler),
        valid_type ty ->
        hs !!! Z.to_nat ty = mk_handler ty fn ->
        l3mdev_table_lookup_register ty fn' hs
        = (errno_of AlreadyRegistered, hs)).
Proof.
  intros HE. split; [|split; [|split]].
  - apply registry_invariant_init.
  - intros ty fn hs Hfn Hinv. apply registry_invariant_register; assumption.
  - intros ty fn hs Hinv. apply registry_invariant_unregister; assumption.
  - intros ty fn fn' hs Hv Hslot. apply register_busy; [exact Hv|].
    left. rewrite Hslot. reflexivity.
Qed.

End RegistryFacts.

(** *** The registry on the header values *)

(** Closed facts about the concrete instances are settled by evaluating
    both sides. *)
Ltac by_evaluation :=
  vm_compute;
  repeat match goal with |- _ /\ _ => split end;
  first [ reflexivity | discriminate | intro; discriminate ].

(** C2 fails as stated: on the initial array a lookup for the unspecified
    tag, and a lookup for the valid tag 1 that has no callback, both return
    -22, not zero. *)
Lemma lookup_absent_is_not_zero :
  (@l3mdev_ifindex_lookup_by_table_id linux_consts unit demo_code
     tt 7 0 (@l3mdev_handlers_init linux_consts)).1 <> 0
  /\ (@l3mdev_ifindex_lookup_by_table_id linux_consts unit demo_code
        tt 7 1 (@l3mdev_handlers_init linux_consts)).1 <> 0.
Proof. by_evaluation. Qed.

Lemma lookup_result_cases_witness :
  @EINVAL linux_consts <> 0
  /\ (@l3mdev_ifindex_lookup_by_table_id linux_consts unit demo_code
        tt 7 1 demo_handlers = (42, [mk_invocation 77 tt 7])).
Proof.
  assert (HE : @EINVAL linux_consts <> 0) by (by_evaluation).
  split; [exact HE|].
  destruct (@lookup_result_cases linux_consts unit demo_code tt 7 1
              demo_handlers HE) as (_ & _ & Hcb).
  assert (Hv : @valid_type linux_consts 1) by by_evaluation.
  apply (Hcb Hv 77); [reflexivity | by_evaluation].
Defined.

Lemma register_then_lookup_witness :
  (@l3mdev_table_lookup_register linux_consts 1 77
     (@l3mdev_handlers_init linux_consts)).1 = 0
  /\ @l3mdev_ifindex_lookup_by_table_id linux_consts unit demo_code tt 7 1
       (@l3mdev_table_lookup_register linux_consts 1 77
          (@l3mdev_handlers_init linux_consts)).2
     = (@code unit demo_code 77 tt 7, [mk_invocation 77 tt 7]).
Proof.
  apply (@register_then_lookup linux_consts unit demo_code 1 77 tt 7
           (@l3mdev_handlers_init linux_consts)).
  - by_evaluation.
  - by_evaluation.
  - exists zero_handler. split; [reflexivity | split; reflexivity].
Defined.

Lemma registry_errors_witness :
  @EINVAL linux_consts <> 0
  /\ @l3mdev_table_lookup_register linux_consts 1 88 demo_handlers
     = (-16, demo_handlers)
  /\ @l3mdev_table_lookup_unregister linux_consts 1 88 demo_handlers
     = (-22, demo_handlers).
Proof.
  assert (HE : @EINVAL linux_consts <> 0) by (by_evaluation).
  split; [exact HE|].
  destruct (@registry_errors linux_consts 1 88 demo_handlers HE)
    as (_ & Hbusy & Hnot & _ & _).
  split.
  - apply Hbusy; [by_evaluation | left; reflexivity].
  - apply Hnot. by_evaluation.
Defined.

(** C5 fails as stated: slot 0 of the initial array stores tag 0, its own
    index, and holds no callback. *)
Lemma registry_invariant_fails_at_slot_0 :
  ~ registry_invariant_all_slots (@l3mdev_handlers_init linux_consts).
Proof.
  intros Hinv.
  destruct (Hinv 0%nat zero_handler eq_refl) as [_ Hback].
  apply Hback; reflexivity.
Qed.

(** Registering a null pointer stores the tag without a callback; the
    invariant is about registrations of callbacks. *)
Lemma registry_invariant_null_register :
  ~ @registry_invariant linux_consts
      (@l3mdev_table_lookup_register linux_consts 1 NULL
         (@l3mdev_handlers_init linux_consts)).2.
Proof.
  intros Hinv.
  assert (Hv : @valid_type linux_consts (Z.of_nat 1)) by by_evaluation.
  destruct (Hinv 1%nat (mk_handler 1 NULL) eq_refl Hv) as [_ Hback].
  apply Hback; reflexivity.
Qed.

Lemma registry_invariant_preserved_witness :
  @EINVAL linux_consts <> 0
  /\ @registry_invariant linux_consts
       (@l3mdev_table_lookup_unregister linux_consts 1 77
          (@l3mdev_table_lookup_register linux_consts 1 77
             (@l3mdev_handlers_init linux_consts)).2).2
  /\ @l3mdev_table_lookup_register linux_consts 1 88 demo_handlers
     = (-16, demo_handlers).
Proof.
  assert (HE : @EINVAL linux_consts <> 0) by (by_evaluation).
  split; [exact HE|].
  destruct (@registry_invariant_preserved linux_consts HE)
    as (Hinit & Hreg & Hunreg & Hone).
  split.
  - apply Hunreg, Hreg; [by_evaluation | exact Hinit].
  - apply (Hone 1 77 88 demo_handlers);
      [by_evaluation | reflexivity].
Defined.

(** ** Master/slave resolver *)

Section ResolverFacts.

Context {net dev : Type} `{DeviceModel net dev}.

Lemma master_ifindex_null : l3mdev_master_ifindex_rcu None = 0.
Proof. reflexivity. Qed.

Lemma master_ifindex_of_master (d : dev) :
  netif_is_l3_master d = true ->
  l3mdev_master_ifindex_rcu (Some d) = ifindex d.
Proof. intros Hm. simpl. rewrite Hm. reflexivity. Qed.

Lemma master_ifindex_of_slave (d m : dev) :
  netif_is_l3_master d = false ->
  netif_is_l3_slave d = true ->
  netdev_master_upper_dev_get_rcu d = Some m ->
  l3mdev_master_ifindex_rcu (Some d) = ifindex m.
Proof. intros Hm Hs Hu. simpl. rewrite Hm, Hs, Hu. reflexivity. Qed.

Lemma master_ifindex_of_detached (d : dev) :
  netif_is_l3_master d = false ->
  netdev_master_upper_dev_get_rcu d = None ->
  l3mdev_master_ifindex_rcu (Some d) = 0.
Proof.
  intros Hm Hu. simpl. rewrite Hm, Hu.
  destruct (netif_is_l3_slave d); reflexivity.
Qed.

Lemma master_ifindex_of_plain (d : dev) :
  netif_is_l3_master d = false ->
  netif_is_l3_slave d = false ->
  l3mdev_master_ifindex_rcu (Some d) = 0.
Proof. intros Hm Hs. simpl. rewrite Hm, Hs. reflexivity. Qed.

Lemma exclusive_slave_not_master (d : dev) :
  flags_exclusive d -> netif_is_l3_slave d = true ->
  netif_is_l3_master d = false.
Proof.
  intros Hex Hs. destruct (netif_is_l3_master d) eqn:Hm; [|reflexivity].
  exfalso. apply Hex. split; [exact Hm | exact Hs].
Qed.

(** C6.  For a device whose master and slave flags are not both set, the
    function returns the device's own index when it is a master, the index
    of its immediate master when it is a slave that has one, and zero in
    every other case: a slave without a master, or a device that is
    neither. *)
Theorem master_ifindex_cases (d : dev) :
  flags_exclusive d ->
  (netif_is_l3_master d = true ->
     l3mdev_master_ifindex_rcu (Some d) = ifindex d)
  /\ (netif_is_l3_slave d = true ->
      forall m : dev,
        netdev_master_upper_dev_get_rcu d = Some m ->
        l3mdev_master_ifindex_rcu (Some d) = ifindex m)
  /\ (netif_is_l3_slave d = true ->
      netdev_master_upper_dev_get_rcu d = None ->
      l3mdev_master_ifindex_rcu (Some d) = 0)
  /\ (netif_is_l3_master d = false ->
      netif_is_l3_slave d = false ->
      l3mdev_master_ifindex_rcu (Some d) = 0).
Proof.
  intros Hex. split; [|split; [|split]].
  - apply master_ifindex_of_master.
  - intros Hs m Hu.
    apply master_ifindex_of_slave;
      [apply exclusive_slave_not_master | |]; assumption.
  - intros Hs Hu.
    apply master_ifindex_of_detached;
      [apply exclusive_slave_not_master |]; assumption.
  - apply master_ifindex_of_plain.
Qed.

Lemma no_master_before_head (k : nat) (dev_ : option dev) :
  no_master_before (S k) dev_ ->
  exists d, dev_ = Some d /\ netif_is_l3_master d = false
            /\ no_master_before k (netdev_master_upper_dev_get d).
Proof.
  intros Hno. destruct (Hno 0%nat ltac:(lia)) as (d & Hd & Hm).
  simpl in Hd. exists d. split; [exact Hd|]. split; [exact Hm|].
  intros j Hj. destruct (Hno (S j) ltac:(lia)) as (d' & Hd' & Hm').
  subst dev_. simpl in Hd'. exists d'. split; assumption.
Qed.

(** With fuel for [k] iterations the loop leaves a chain whose first
    master, or whose end, is [k] hops away. *)
Lemma master_upper_walk_exits (k : nat) :
  forall (dev_ : option dev) (fuel : nat),
    no_master_before k dev_ ->
    (nth_upper k dev_ = None
     \/ exists m, nth_upper k dev_ = Some m /\ netif_is_l3_master m = true) ->
    (k <= fuel)%nat ->
    master_upper_walk fuel dev_ = Some (nth_upper k dev_).
Proof.
  induction k as [|k IH]; intros dev_ fuel Hno Hstop Hfuel.
  - simpl in *. destruct Hstop as [->|(m & -> & Hm)].
    + destruct fuel; reflexivity.
    + destruct fuel; simpl; rewrite Hm; reflexivity.
  - destruct (no_master_before_head _ _ Hno) as (d & -> & Hm & Hno').
    destruct fuel as [|fuel]; [lia|].
    simpl. rewrite Hm. simpl in Hstop.
    apply IH; [exact Hno' | exact Hstop | lia].
Qed.

(** C7, as amended.  When the chain of master relations that starts at the
    device the handle resolves to reaches, [k] hops up, either an L3 master
    or its end, with no L3 master before, the walk terminates after [k]
    iterations and returns the index of that first master, or zero when the
    chain ended (or the handle resolved to nothing). *)
Theorem master_upper_walk_terminates (n : net) (handle : Z) (k : nat) :
  no_master_before k (dev_get_by_index_rcu n handle) ->
  (nth_upper k (dev_get_by_index_rcu n handle) = None
   \/ exists m, nth_upper k (dev_get_by_index_rcu n handle) = Some m
                /\ netif_is_l3_master m = true) ->
  forall fuel : nat, (k <= fuel)%nat ->
    l3mdev_master_upper_ifindex_by_index_rcu fuel n handle
    = Some match nth_upper k (dev_get_by_index_rcu n handle) with
           | Some m => ifindex m
           | None => 0
           end.
Proof.
  intros Hno Hstop fuel Hfuel. unfold l3mdev_master_upper_ifindex_by_index_rcu.
  rewrite (master_upper_walk_exits k _ fuel Hno Hstop Hfuel).
  destruct (nth_upper k (dev_get_by_index_rcu n handle)); reflexivity.
Qed.

End ResolverFacts.

(** *** The resolver on concrete device models *)

Lemma master_ifindex_cases_witness :
  @flags_exclusive unit Z demo_devices 5
  /\ @l3mdev_master_ifindex_rcu unit Z demo_devices (Some 5) = 42.
Proof.
  assert (Hex : @flags_exclusive unit Z demo_devices 5).
  { intros [Hm _]. vm_compute in Hm. discriminate Hm. }
  split; [exact Hex|].
  destruct (@master_ifindex_cases unit Z demo_devices 5 Hex)
    as (_ & Hslave & _ & _).
  apply (Hslave eq_refl 42 eq_refl).
Defined.

Lemma looping_walk_never_exits (fuel : nat) :
  @master_upper_walk unit Z looping_devices fuel (Some 1) = None.
Proof. induction fuel as [|fuel IH]; [reflexivity | exact IH]. Qed.

(** C7 fails as stated: where device 1 is no L3 master and is its own
    upper device, the walk from handle 1 returns for no number of
    iterations. *)
Lemma master_upper_walk_loops_on_cycle :
  ~ exists (fuel : nat) (r : Z),
      @l3mdev_master_upper_ifindex_by_index_rcu unit Z looping_devices
        fuel tt 1 = Some r.
Proof.
  intros (fuel & r & Hr).
  unfold l3mdev_master_upper_ifindex_by_index_rcu in Hr.
  change (@dev_get_by_index_rcu unit Z looping_devices tt 1) with (Some 1) in Hr.
  rewrite looping_walk_never_exits in Hr. discriminate Hr.
Qed.

Lemma master_upper_walk_terminates_witness :
  @l3mdev_master_upper_ifindex_by_index_rcu unit Z stacked_devices 2 tt 5
  = Some 100.
Proof.
  apply (@master_upper_walk_terminates unit Z stacked_devices tt 5 2).
  - intros j Hj.
    destruct j as [|[|j]]; [exists 5 | exists 42 | lia]; split; reflexivity.
  - right. exists 100. split; reflexivity.
  - lia.
Defined.

(** ** Flow rewriter *)

(** Case analysis along the tests the rewriter makes on one interface
    index: is it set, does it name a device, has the device a master. *)
Ltac flow_cases :=
  unfold resolves_to_master, l3mdev_update_flow, update_flow_iif;
  repeat match goal with
    | |- context [negb (?a =? 0)] => destruct (Z.eqb_spec a 0); cbn [negb]
    | |- context [dev_get_by_index_rcu ?n ?i] =>
        destruct (dev_get_by_index_rcu n i); cbv zeta
    end.

Section FlowFacts.

Context `{KernelConsts} {net dev : Type} `{DeviceModel net dev} {rest : Type}.

Lemma lor_flag_set (flags flag : Z) :
  Z.land (Z.lor flags flag) flag = flag.
Proof.
  apply Z.bits_inj'. intros i _.
  rewrite Z.land_spec, Z.lor_spec.
  destruct (Z.testbit flags i), (Z.testbit flag i); reflexivity.
Qed.

Lemma lor_flag_twice (flags flag : Z) :
  Z.lor (Z.lor flags flag) flag = Z.lor flags flag.
Proof. rewrite <- Z.lor_assoc, Z.lor_diag. reflexivity. Qed.

Lemma resolves_some_inv (n : net) (handle m : Z) :
  resolves_to_master n handle = Some m ->
  handle <> 0 /\ m <> 0
  /\ exists d, dev_get_by_index_rcu n handle = Some d
               /\ l3mdev_master_ifindex_rcu (Some d) = m.
Proof.
  flow_cases; intros Hr; try discriminate Hr.
  injection Hr as <-. repeat (split; [assumption|]). eexists. split; reflexivity.
Qed.

(** The output side substitutes and jumps to [out]. *)
Lemma update_flow_oif_resolved (n : net) (fl : flowi rest) (m : Z) :
  resolves_to_master n (flowi_oif fl) = Some m ->
  l3mdev_update_flow n fl
  = {| flowi_oif := m;
       flowi_iif := flowi_iif fl;
       flowi_flags := Z.lor (flowi_flags fl) FLOWI_FLAG_SKIP_NH_OIF;
       flowi_rest := flowi_rest fl |}.
Proof. flow_cases; intros Hr; try discriminate Hr; congruence. Qed.

(** Otherwise control falls through to the input side. *)
Lemma update_flow_oif_unresolved (n : net) (fl : flowi rest) :
  resolves_to_master n (flowi_oif fl) = None ->
  l3mdev_update_flow n fl = update_flow_iif n fl.
Proof. flow_cases; intros Hr; try discriminate Hr; reflexivity. Qed.

Lemma update_flow_iif_resolved (n : net) (fl : flowi rest) (m : Z) :
  resolves_to_master n (flowi_iif fl) = Some m ->
  update_flow_iif n fl
  = {| flowi_oif := flowi_oif fl;
       flowi_iif := m;
       flowi_flags := Z.lor (flowi_flags fl) FLOWI_FLAG_SKIP_NH_OIF;
       flowi_rest := flowi_rest fl |}.
Proof. flow_cases; intros Hr; try discriminate Hr; congruence. Qed.

Lemma update_flow_iif_unresolved (n : net) (fl : flowi rest) :
  resolves_to_master n (flowi_iif fl) = None ->
  update_flow_iif n fl = fl.
Proof. flow_cases; intros Hr; try discriminate Hr; reflexivity. Qed.

(** C8.  When the output interface is set and resolves to a master, the
    flow comes back with the output interface replaced by the master's
    index and the skip-next-hop flag set, whatever the input interface is
    (it is kept as it was).  Otherwise, when the input interface is set and
    resolves to a master, the input interface is replaced by the master's
    index and the same flag is set. *)
Theorem update_flow_output_priority (n : net) (fl : flowi rest) :
  (forall m : Z,
     resolves_to_master n (flowi_oif fl) = Some m ->
     l3mdev_update_flow n fl
     = {| flowi_oif := m;
          flowi_iif := flowi_iif fl;
          flowi_flags := Z.lor (flowi_flags fl) FLOWI_FLAG_SKIP_NH_OIF;
          flowi_rest := flowi_rest fl |}
     /\ skip_nh_oif_set (flowi_flags (l3mdev_update_flow n fl)))
  /\ (resolves_to_master n (flowi_oif fl) = None ->
      forall m : Z,
        resolves_to_master n (flowi_iif fl) = Some m ->
        l3mdev_update_flow n fl
        = {| flowi_oif := flowi_oif fl;
             flowi_iif := m;
             flowi_flags := Z.lor (flowi_flags fl) FLOWI_FLAG_SKIP_NH_OIF;
             flowi_rest := flowi_rest fl |}
        /\ skip_nh_oif_set (flowi_flags (l3mdev_update_flow n fl))).
Proof.
  split.
  - intros m Hr. rewrite (update_flow_oif_resolved _ _ _ Hr).
    split; [reflexivity | apply lor_flag_set].
  - intros Hno m Hr.
    rewrite (update_flow_oif_unresolved _ _ Hno),
            (update_flow_iif_resolved _ _ _ Hr).
    split; [reflexivity | apply lor_flag_set].
Qed.

(** In a well-formed device model the index a handle resolves to
    resolves to itself. *)
Lemma resolves_to_master_fixed (n : net) (handle m : Z) :
  index_consistent -> slaves_have_l3_masters ->
  resolves_to_master n handle = Some m ->
  resolves_to_master n m = Some m.
Proof.
  intros Hidx Hup Hr.
  destruct (resolves_some_inv _ _ _ Hr) as (Hh & Hm & d & Hd & Hmd).
  destruct (netif_is_l3_master d) eqn:Emaster.
  - rewrite (master_ifindex_of_master d Emaster) in Hmd.
    rewrite (Hidx _ _ _ Hd) in Hmd. subst m. exact Hr.
  - destruct (netif_is_l3_slave d) eqn:Eslave;
      [|rewrite (master_ifindex_of_plain d Emaster Eslave) in Hmd; congruence].
    destruct (netdev_master_upper_dev_get_rcu d) as [u|] eqn:Eup;
      [|rewrite (master_ifindex_of_detached d Emaster Eup) in Hmd; congruence].
    rewrite (master_ifindex_of_slave d u Emaster Eslave Eup) in Hmd.
    destruct (Hup _ _ _ _ Hd Emaster Eslave Eup) as (m' & Hm' & Hmaster).
    rewrite Hmd in Hm'.
    assert (Hown : l3mdev_master_ifindex_rcu (Some m') = m).
    { rewrite (master_ifindex_of_master m' Hmaster). apply (Hidx _ _ _ Hm'). }
    unfold resolves_to_master. rewrite Hm'. cbv zeta. rewrite Hown.
    destruct (Z.eqb_spec m 0) as [E|_]; [contradiction | reflexivity].
Qed.

(** C9, as amended.  In a device model that does not change between the
    calls, where the index service returns devices carrying the index
    asked for and the immediate master of a slave is an L3 master of the
    same namespace, rewriting a flow a second time returns the flow the
    first rewrite returned: the same interface indices, flags and other
    members. *)
Theorem update_flow_idempotent (n : net) (fl : flowi rest) :
  index_consistent -> slaves_have_l3_masters ->
  l3mdev_update_flow n (l3mdev_update_flow n fl) = l3mdev_update_flow n fl.
Proof.
  intros Hidx Hup.
  destruct (resolves_to_master n (flowi_oif fl)) as [m|] eqn:Eo.
  - rewrite (update_flow_oif_resolved _ _ _ Eo).
    rewrite (update_flow_oif_resolved n _ m)
      by (simpl; apply (resolves_to_master_fixed n (flowi_oif fl)); assumption).
    simpl. rewrite lor_flag_twice. reflexivity.
  - rewrite (update_flow_oif_unresolved _ _ Eo).
    destruct (resolves_to_master n (flowi_iif fl)) as [m|] eqn:Ei.
    + rewrite (update_flow_iif_resolved _ _ _ Ei).
      rewrite update_flow_oif_unresolved by exact Eo.
      rewrite (update_flow_iif_resolved n _ m)
        by (simpl; apply (resolves_to_master_fixed n (flowi_iif fl)); assumption).
      simpl. rewrite lor_flag_twice. reflexivity.
    + rewrite (update_flow_iif_unresolved _ _ Ei).
      rewrite (update_flow_oif_unresolved _ _ Eo).
      apply update_flow_iif_unresolved, Ei.
Qed.

(** C10.  The members of the flow other than the two interface indices
    and the flag word come back as they were, and the flag word comes back
    either as it was or with the skip-next-hop flag or-ed in; when neither
    the output nor the input interface resolves to a master the whole flow
    comes back unchanged, its flag word included; and when the output
    interface is substituted the input interface comes back as it was. *)
Theorem update_flow_frame (n : net) (fl : flowi rest) :
  flowi_rest (l3mdev_update_flow n fl) = flowi_rest fl
  /\ (flowi_flags (l3mdev_update_flow n fl) = flowi_flags fl
      \/ flowi_flags (l3mdev_update_flow n fl)
         = Z.lor (flowi_flags fl) FLOWI_FLAG_SKIP_NH_OIF)
  /\ (resolves_to_master n (flowi_oif fl) = None ->
      resolves_to_master n (flowi_iif fl) = None ->
      l3mdev_update_flow n fl = fl)
  /\ (forall m : Z,
        resolves_to_master n (flowi_oif fl) = Some m ->
        flowi_oif (l3mdev_update_flow n fl) = m
        /\ flowi_iif (l3mdev_update_flow n fl) = flowi_iif fl).
Proof.
  assert (Hcases :
    l3mdev_update_flow n fl = fl
    \/ exists o i, l3mdev_update_flow n fl
         = {| flowi_oif := o; flowi_iif := i;
              flowi_flags := Z.lor (flowi_flags fl) FLOWI_FLAG_SKIP_NH_OIF;
              flowi_rest := flowi_rest fl |}).
  { destruct (resolves_to_master n (flowi_oif fl)) as [m|] eqn:Eo.
    - right. exists m, (flowi_iif fl). apply update_flow_oif_resolved, Eo.
    - rewrite (update_flow_oif_unresolved _ _ Eo).
      destruct (resolves_to_master n (flowi_iif fl)) as [m|] eqn:Ei.
      + right. exists (flowi_oif fl), m. apply update_flow_iif_resolved, Ei.
      + left. apply update_flow_iif_unresolved, Ei. }
  split; [|split; [|split]].
  - destruct Hcases as [->|(o & i & ->)]; reflexivity.
  - destruct Hcases as [->|(o & i & ->)]; [left | right]; reflexivity.
  - intros Eo Ei. rewrite (update_flow_oif_unresolved _ _ Eo).
    apply update_flow_iif_unresolved, Ei.
  - intros m Eo. rewrite (update_flow_oif_resolved _ _ _ Eo).
    split; reflexivity.
Qed.

End FlowFacts.

(** *** The rewriter on concrete device models *)

(** The scenario of the specification: output interface 5, a slave of
    master 42, comes back as 42 with the flag set. *)
Example update_flow_slave_of_42 :
  @l3mdev_update_flow linux_consts unit Z demo_devices unit tt
    (mk_flowi 5 0 0 tt)
  = mk_flowi 42 0 4 tt.
Proof. reflexivity. Qed.

(** With no master on either side the flow and its flags are untouched. *)
Example update_flow_plain_device :
  @l3mdev_update_flow linux_consts unit Z demo_devices unit tt
    (mk_flowi 9 0 0 tt)
  = mk_flowi 9 0 0 tt.
Proof. reflexivity. Qed.

Lemma update_flow_output_priority_witness :
  @l3mdev_update_flow linux_consts unit Z demo_devices unit tt
    (mk_flowi 5 9 0 tt) = mk_flowi 42 9 4 tt
  /\ @l3mdev_update_flow linux_consts unit Z demo_devices unit tt
       (mk_flowi 9 5 0 tt) = mk_flowi 9 42 4 tt.
Proof.
  split.
  - destruct (@update_flow_output_priority linux_consts unit Z demo_devices
                unit tt (mk_flowi 5 9 0 tt)) as [Hout _].
    apply (Hout 42 eq_refl).
  - destruct (@update_flow_output_priority linux_consts unit Z demo_devices
                unit tt (mk_flowi 9 5 0 tt)) as [_ Hin].
    apply (Hin eq_refl 42 eq_refl).
Defined.

Lemma update_flow_frame_witness :
  @l3mdev_update_flow linux_consts unit Z demo_devices unit tt
    (mk_flowi 9 0 1 tt) = mk_flowi 9 0 1 tt
  /\ flowi_iif (@l3mdev_update_flow linux_consts unit Z demo_devices unit tt
                  (mk_flowi 5 9 0 tt)) = 9.
Proof.
  split.
  - destruct (@update_flow_frame linux_consts unit Z demo_devices unit tt
                (mk_flowi 9 0 1 tt)) as (_ & _ & Hsame & _).
    apply (Hsame eq_refl eq_refl).
  - destruct (@update_flow_frame linux_consts unit Z demo_devices unit tt
                (mk_flowi 5 9 0 tt)) as (_ & _ & _ & Hout).
    apply (Hout 42 eq_refl).
Defined.

Lemma demo_devices_index_consistent : @index_consistent unit Z demo_devices.
Proof.
  intros n i d. simpl.
  destruct ((i =? 5) || (i =? 9) || (i =? 42)); congruence.
Qed.

Lemma demo_devices_slaves_have_l3_masters :
  @slaves_have_l3_masters unit Z demo_devices.
Proof.
  intros n i d m _ _ Hs Hup. simpl in *.
  destruct (d =? 5); [|discriminate Hup].
  injection Hup as <-. exists 42. split; reflexivity.
Qed.

Lemma update_flow_idempotent_witness :
  @l3mdev_update_flow linux_consts unit Z demo_devices unit tt
    (@l3mdev_update_flow linux_consts unit Z demo_devices unit tt
       (mk_flowi 5 9 1 tt))
  = mk_flowi 42 9 5 tt.
Proof.
  rewrite (@update_flow_idempotent linux_consts unit Z demo_devices unit tt
             (mk_flowi 5 9 1 tt)
             demo_devices_index_consistent
             demo_devices_slaves_have_l3_masters).
  reflexivity.
Defined.

(** The hypothesis on masters is used: where the master of slave 5 is
    itself a slave of 100, the first rewrite yields 42 and the second
    100. *)
Remark update_flow_twice_on_stacked_devices :
  @l3mdev_update_flow linux_consts unit Z stacked_devices unit tt
    (mk_flowi 5 0 0 tt) = mk_flowi 42 0 4 tt
  /\ @l3mdev_update_flow linux_consts unit Z stacked_devices unit tt
       (mk_flowi 42 0 4 tt) = mk_flowi 100 0 4 tt.
Proof. split; reflexivity. Qed.

(** C9 fails as stated: on that device model, which does not change
    between the calls, the flow with output interface 5 is rewritten to 42
    by one call and to 100 by two. *)
Lemma update_flow_not_idempotent_on_stacked_devices :
  @l3mdev_update_flow linux_consts unit Z stacked_devices unit tt
    (@l3mdev_update_flow linux_consts unit Z stacked_devices unit tt
       (mk_flowi 5 0 0 tt))
  <> @l3mdev_update_flow linux_consts unit Z stacked_devices unit tt
       (mk_flowi 5 0 0 tt).
Proof. by_evaluation. Qed.

(** ** Lookups running concurrently with unregister *)

Section RcuFacts.

Context `{KernelConsts} {net : Type} `{CallbackTable net}.

Variable uty : Z.
Variable ufn : fnptr.

Hypothesis EINVAL_nonzero : EINVAL <> 0.

Lemma read_sections_from_elem (rs : list (reader net)) :
  forall (k t : nat) (r : reader net),
    rs !! t = Some r -> in_read_section r = true ->
    (k + t)%nat ∈ read_sections_from k rs.
Proof.
  induction rs as [|r0 rs IH]; intros k t r Ht Hin; [discriminate Ht|].
  destruct t as [|t]; simpl in *.
  - injection Ht as ->. rewrite Hin, Nat.add_0_r. apply elem_of_cons. left.
    reflexivity.
  - specialize (IH (S k) t r Ht Hin).
    replace (k + S t)%nat with (S k + t)%nat by lia.
    destruct (in_read_section r0); [apply elem_of_cons; right|]; exact IH.
Qed.

Lemma holds_in_read_section (r : reader net) :
  holds_removed uty ufn r = true -> in_read_section r = true.
Proof. destruct r; simpl; [discriminate | | |]; reflexivity. Qed.

Lemma holds_removed_loaded (n : net) (table_id ty : Z) (lookup : fnptr) :
  holds_removed uty ufn (RLoaded n table_id ty lookup) = true ->
  ty = uty /\ lookup = ufn.
Proof.
  simpl. intros Hh. apply andb_true_iff in Hh as [E1 E2].
  apply Z.eqb_eq in E1, E2. split; assumption.
Qed.

(** A slot that matches a valid tag is inside the array. *)
Lemma matching_slot_in_range (ty : Z) (hs : list l3mdev_handler) :
  valid_type ty -> l3type (hs !!! Z.to_nat ty) = ty ->
  (Z.to_nat ty < length hs)%nat.
Proof.
  intros Hv E. destruct (decide (Z.to_nat ty < length hs)%nat) as [Hlt|Hge];
    [exact Hlt|].
  exfalso. rewrite list_lookup_total_alt, lookup_ge_None_2 in E by lia.
  simpl in E. unfold valid_type, L3MDEV_TYPE_UNSPEC in Hv. lia.
Qed.

(** A successful unregister had a valid tag and leaves its slot without a
    callback. *)
Lemma unregister_success (ty : Z) (fn : fnptr) (hs : list l3mdev_handler) :
  (l3mdev_table_lookup_unregister ty fn hs).1 = 0 ->
  valid_type ty
  /\ dev_ifindex_lookup_by_table_id
       ((l3mdev_table_lookup_unregister ty fn hs).2 !!! Z.to_nat ty) = NULL.
Proof.
  intros Hres. destruct (check_type_cases ty) as [[Hv _]|[Hv _]].
  - split; [exact Hv|].
    destruct (Z.eq_dec (l3type (hs !!! Z.to_nat ty)) ty) as [E1|E1].
    + destruct (Z.eq_dec (dev_ifindex_lookup_by_table_id (hs !!! Z.to_nat ty)) fn)
        as [E2|E2].
      * rewrite (unregister_match _ _ _ Hv E1 E2). simpl.
        rewrite list_lookup_total_insert_eq
          by (apply matching_slot_in_range; assumption).
        reflexivity.
      * rewrite unregister_mismatch in Hres by auto. simpl in Hres. lia.
    + rewrite unregister_mismatch in Hres by auto. simpl in Hres. lia.
  - rewrite unregister_invalid in Hres by assumption. simpl in Hres. lia.
Qed.

(** Run one after the other, a successful unregister leaves nothing for a
    lookup of the same tag to invoke. *)
Lemma unregister_then_lookup (ty : Z) (fn : fnptr) (n : net) (table_id : Z)
    (hs : list l3mdev_handler) :
  (l3mdev_table_lookup_unregister ty fn hs).1 = 0 ->
  l3mdev_ifindex_lookup_by_table_id n table_id ty
    (l3mdev_table_lookup_unregister ty fn hs).2
  = (- EINVAL, []).
Proof.
  intros Hres. destruct (unregister_success ty fn hs Hres) as [Hv Hnull].
  apply lookup_no_callback; assumption.
Qed.

(** The callback of the slot of [uty] after some other thread's
    unregister: unchanged or null. *)
Lemma slot_after_unregister (ty : Z) (fn : fnptr) (hs : list l3mdev_handler) :
  let hs' := (l3mdev_table_lookup_unregister ty fn hs).2 in
  dev_ifindex_lookup_by_table_id (hs' !!! Z.to_nat uty)
  = dev_ifindex_lookup_by_table_id (hs !!! Z.to_nat uty)
  \/ dev_ifindex_lookup_by_table_id (hs' !!! Z.to_nat uty) = NULL.
Proof.
  cbv zeta.
  destruct (unregister_shape ty fn hs EINVAL_nonzero) as [->|(_ & _ & _ & ->)];
    [left; reflexivity|].
  simpl. rewrite list_lookup_total_insert. case_decide; [right | left]; reflexivity.
Qed.

(** The callback of the slot of [uty] after some other thread's register
    of anything but [ufn] for [uty]: unchanged or different from [ufn]. *)
Lemma slot_after_register (ty : Z) (fn : fnptr) (hs : list l3mdev_handler) :
  valid_type uty ->
  (ty =? uty) && (fn =? ufn) = false ->
  let hs' := (l3mdev_table_lookup_register ty fn hs).2 in
  dev_ifindex_lookup_by_table_id (hs' !!! Z.to_nat uty)
  = dev_ifindex_lookup_by_table_id (hs !!! Z.to_nat uty)
  \/ dev_ifindex_lookup_by_table_id (hs' !!! Z.to_nat uty) <> ufn.
Proof.
  intros Hu Hother. cbv zeta.
  destruct (register_shape ty fn hs EINVAL_nonzero) as [->|(Hv & _ & ->)];
    [left; reflexivity|].
  simpl. rewrite list_lookup_total_insert.
  case_decide as Hidx; [right | left; reflexivity].
  destruct Hidx as [Hidx _]. simpl. intros ->.
  unfold valid_type, L3MDEV_TYPE_UNSPEC in *.
  assert (ty = uty) by lia. subst ty.
  rewrite !Z.eqb_refl in Hother. discriminate Hother.
Qed.

Lemma awaited_after_unlock (t t' : nat) (pc : unregister_pc) :
  t' <> t -> awaited t' pc -> awaited t' (rcu_read_unlock t pc).
Proof.
  destruct pc; simpl; auto.
  intros Hne Hin. apply list_elem_of_filter. split; assumption.
Qed.

Lemma cleared_after_unlock (t : nat) (pc : unregister_pc) :
  cleared (rcu_read_unlock t pc) = cleared pc.
Proof. destruct pc; reflexivity. Qed.

(** Overwriting a thread with a state that does not hold [ufn] creates no
    holder. *)
Lemma holders_after_update (rs : list (reader net)) (t : nat)
    (r0 : reader net) :
  holds_removed uty ufn r0 = false ->
  forall (t' : nat) (r' : reader net),
    <[t := r0]> rs !! t' = Some r' ->
    holds_removed uty ufn r' = true ->
    t' <> t /\ rs !! t' = Some r'.
Proof.
  intros Hr0 t' r' Hl Hh.
  apply list_lookup_insert_Some in Hl as [(_ & -> & _)|(Hne & Hl)].
  - congruence.
  - split; [congruence | exact Hl].
Qed.

Lemma reader_update_preserves (s : system net) (t : nat) (r0 : reader net)
    (pc' : unregister_pc) :
  grace_invariant uty ufn s ->
  holds_removed uty ufn r0 = false ->
  (forall t', t' <> t -> awaited t' (sys_unregister s) -> awaited t' pc') ->
  grace_invariant uty ufn
    (mk_system (sys_handlers s) (<[t := r0]> (sys_readers s)) pc').
Proof.
  intros (Hv & Hslot & Hwait) Hr0 Hpc. split; [exact Hv|]. split; [exact Hslot|].
  simpl. intros t' r' Hl Hh.
  destruct (holders_after_update _ _ _ Hr0 _ _ Hl Hh) as [Hne Hold].
  apply Hpc; [exact Hne|]. apply (Hwait t' r' Hold Hh).
Qed.

(** After the clear a reader that dereferences the slot does not obtain
    [ufn] for [uty]. *)
Lemma dereference_after_clear (s : system net) (n : net) (table_id ty : Z) :
  grace_invariant uty ufn s ->
  let lookup :=
    dev_ifindex_lookup_by_table_id (sys_handlers s !!! Z.to_nat ty) in
  holds_removed uty ufn
    (if lookup =? NULL then RUnlock (- EINVAL)
     else RLoaded n table_id ty lookup) = false.
Proof.
  intros (_ & Hslot & _). cbv zeta.
  destruct (Z.eqb_spec
              (dev_ifindex_lookup_by_table_id (sys_handlers s !!! Z.to_nat ty))
              NULL) as [E|E]; [reflexivity|].
  destruct (holds_removed uty ufn (RLoaded n table_id ty _)) eqn:Hh;
    [|reflexivity].
  apply holds_removed_loaded in Hh as [-> Hfn].
  exfalso. apply E. rewrite Hfn. apply Hslot, Hfn.
Qed.

(** One step taken after the clear: the invariant is kept, no thread comes
    to hold [ufn] for [uty], and an invocation of [ufn] for [uty] is made
    by a thread that held it before the step. *)
Lemma step_after_clear (a : action net) (s s' : system net)
    (evs : list (lookup_event net)) :
  cleared (sys_unregister s) = true ->
  grace_invariant uty ufn s ->
  registers_again uty ufn a = false ->
  step uty ufn a s = Some (s', evs) ->
  cleared (sys_unregister s') = true
  /\ grace_invariant uty ufn s'
  /\ (forall (t : nat) (r' : reader net),
        sys_readers s' !! t = Some r' ->
        holds_removed uty ufn r' = true ->
        sys_readers s !! t = Some r')
  /\ (forall e : lookup_event net,
        e ∈ evs -> invokes_removed uty ufn e = true ->
        exists r, sys_readers s !! ev_thread e = Some r
                  /\ holds_removed uty ufn r = true).
Proof.
  intros Hcl Hinv Hreg Hstep.
  destruct a as [t n table_id ty | t | | ty fn | ty fn]; simpl in Hstep.
  - (* a thread enters the lookup function *)
    destruct (sys_readers s !! t) as [[| | |]|] eqn:Ht; try discriminate Hstep.
    destruct (negb (l3mdev_check_type ty =? 0));
      injection Hstep as <- <-.
    + split; [exact Hcl|]. split; [exact Hinv|]. split; [auto|].
      intros e He. apply elem_of_nil in He. contradiction.
    + simpl. split; [exact Hcl|]. split; [|split].
      * apply reader_update_preserves; auto.
      * intros t' r' Hl Hh.
        apply (holders_after_update _ t (RLocked n table_id ty) eq_refl _ _ Hl Hh).
      * intros e He. apply elem_of_nil in He. contradiction.
  - (* a thread runs its next statement *)
    destruct (sys_readers s !! t) as [[|n table_id ty|n table_id ty lookup|i]|]
      eqn:Ht; try discriminate Hstep; injection Hstep as <- <-; simpl.
    + (* rcu_dereference *)
      pose proof (dereference_after_clear s n table_id ty Hinv) as Hno.
      cbv zeta in Hno.
      split; [exact Hcl|]. split; [|split].
      * apply reader_update_preserves; auto.
      * intros t' r' Hl Hh. apply (holders_after_update _ _ _ Hno _ _ Hl Hh).
      * intros e He. apply elem_of_nil in He. contradiction.
    + (* the call through the pointer *)
      split; [exact Hcl|]. split; [|split].
      * apply reader_update_preserves; auto.
      * intros t' r' Hl Hh.
        apply (holders_after_update _ t (RUnlock (code lookup n table_id))
                 eq_refl _ _ Hl Hh).
      * intros e He Hinvk. apply list_elem_of_singleton in He. subst e.
        simpl. exists (RLoaded n table_id ty lookup). split; [exact Ht|].
        exact Hinvk.
    + (* rcu_read_unlock *)
      rewrite cleared_after_unlock. split; [exact Hcl|]. split; [|split].
      * apply reader_update_preserves; auto.
        intros t' Hne. apply awaited_after_unlock, Hne.
      * intros t' r' Hl Hh.
        apply (holders_after_update _ t RIdle eq_refl _ _ Hl Hh).
      * intros e He. apply elem_of_nil in He. contradiction.
  - (* the unregistering thread moves on *)
    destruct Hinv as (Hv & Hslot & Hwait).
    destruct (sys_unregister s) as [| |pending| |res] eqn:Hpc;
      try discriminate Hcl.
    + (* synchronize_rcu is entered *)
      injection Hstep as <- <-. simpl.
      split; [reflexivity|]. split; [|split].
      * split; [exact Hv|]. split; [exact Hslot|]. simpl.
        intros t r Hl Hh.
        apply (read_sections_from_elem _ 0%nat t r Hl).
        apply holds_in_read_section, Hh.
      * auto.
      * intros e He. apply elem_of_nil in He. contradiction.
    + (* synchronize_rcu returns *)
      destruct pending as [|t0 pending]; [|discriminate Hstep].
      injection Hstep as <- <-. simpl.
      split; [reflexivity|]. split; [|split].
      * split; [exact Hv|]. split; [exact Hslot|]. simpl.
        intros t r Hl Hh. apply (elem_of_nil t), (Hwait t r Hl Hh).
      * auto.
      * intros e He. apply elem_of_nil in He. contradiction.
    + (* rcu_barrier *)
      injection Hstep as <- <-. simpl.
      split; [reflexivity|]. split; [|split].
      * split; [exact Hv|]. split; [exact Hslot|]. simpl.
        intros t r Hl Hh. apply (Hwait t r Hl Hh).
      * auto.
      * intros e He. apply elem_of_nil in He. contradiction.
    + discriminate Hstep.
  - (* another thread registers *)
    injection Hstep as <- <-. simpl.
    destruct Hinv as (Hv & Hslot & Hwait).
    split; [exact Hcl|]. split; [|split].
    + split; [exact Hv|]. split; [|exact Hwait]. simpl.
      destruct (slot_after_register ty fn (sys_handlers s) Hv Hreg) as [->|Hne];
        [exact Hslot | intros E; contradiction].
    + auto.
    + intros e He. apply elem_of_nil in He. contradiction.
  - (* another thread unregisters *)
    injection Hstep as <- <-. simpl.
    destruct Hinv as (Hv & Hslot & Hwait).
    split; [exact Hcl|]. split; [|split].
    + split; [exact Hv|]. split; [|exact Hwait]. simpl.
      destruct (slot_after_unregister ty fn (sys_handlers s)) as [-> | ->];
        [exact Hslot | intros E; symmetry; exact E].
    + auto.
    + intros e He. apply elem_of_nil in He. contradiction.
Qed.

(** Only the unregistering thread's own steps take it past the clear. *)
Lemma step_keeps_cleared (a : action net) (s s' : system net)
    (evs : list (lookup_event net)) :
  a <> AUnregisterStep ->
  step uty ufn a s = Some (s', evs) ->
  cleared (sys_unregister s') = cleared (sys_unregister s).
Proof.
  intros Ha Hstep.
  destruct a as [t n table_id ty | t | | ty fn | ty fn]; simpl in Hstep;
    [| | congruence | |].
  - destruct (sys_readers s !! t) as [[| | |]|]; try discriminate Hstep.
    destruct (negb (l3mdev_check_type ty =? 0));
      injection Hstep as <- <-; reflexivity.
  - destruct (sys_readers s !! t) as [[| | |]|]; try discriminate Hstep;
      injection Hstep as <- <-; simpl;
      [reflexivity | reflexivity | apply cleared_after_unlock].
  - injection Hstep as <- <-. reflexivity.
  - injection Hstep as <- <-. reflexivity.
Qed.

(** The locked section of the unregister call establishes the invariant
    when it succeeds. *)
Lemma clear_establishes (s s' : system net) (evs : list (lookup_event net)) :
  sys_unregister s = UCall ->
  step uty ufn AUnregisterStep s = Some (s', evs) ->
  cleared (sys_unregister s') = true ->
  grace_invariant uty ufn s'.
Proof.
  intros Hpc Hstep Hcl. simpl in Hstep. rewrite Hpc in Hstep.
  pose proof (unregister_success uty ufn (sys_handlers s)) as Hok.
  destruct (l3mdev_table_lookup_unregister uty ufn (sys_handlers s))
    as [res hs] eqn:Hun.
  injection Hstep as <- <-. simpl in *.
  destruct (Z.eqb_spec res 0) as [->|Hres].
  - destruct (Hok eq_refl) as [Hv Hnull].
    split; [exact Hv|]. split; simpl.
    + rewrite Hnull. intros <-. reflexivity.
    + intros t r _ _. exact I.
  - simpl in Hcl. apply Z.eqb_eq in Hcl. contradiction.
Qed.

(** The invariant holds whenever the slot has been cleared. *)
Lemma step_phase (a : action net) (s s' : system net)
    (evs : list (lookup_event net)) :
  (cleared (sys_unregister s) = true -> grace_invariant uty ufn s) ->
  registers_again uty ufn a = false ->
  step uty ufn a s = Some (s', evs) ->
  cleared (sys_unregister s') = true -> grace_invariant uty ufn s'.
Proof.
  intros Hphase Hreg Hstep Hcl'.
  destruct (cleared (sys_unregister s)) eqn:Hcl.
  - apply (step_after_clear a s s' evs Hcl (Hphase eq_refl) Hreg Hstep).
  - assert (Ha : a = AUnregisterStep \/ a <> AUnregisterStep)
      by (destruct a; (left; reflexivity) || (right; discriminate)).
    destruct Ha as [->|Ha].
    + destruct (sys_unregister s) as [| | | |res] eqn:Hpc;
        try discriminate Hcl.
      * apply (clear_establishes s s' evs Hpc Hstep Hcl').
      * simpl in Hstep. rewrite Hpc in Hstep. discriminate Hstep.
    + rewrite (step_keeps_cleared a s s' evs Ha Hstep) in Hcl'. congruence.
Qed.

Lemma never_registers_again_cons (a : action net) (sched : list (action net)) :
  never_registers_again uty ufn (a :: sched) ->
  registers_again uty ufn a = false /\ never_registers_again uty ufn sched.
Proof.
  intros Hn. split.
  - apply Hn, elem_of_cons. left. reflexivity.
  - intros a' Ha'. apply Hn, elem_of_cons. right. exact Ha'.
Qed.

Lemma never_registers_again_app (sched1 sched2 : list (action net)) :
  never_registers_again uty ufn (sched1 ++ sched2) ->
  never_registers_again uty ufn sched1 /\ never_registers_again uty ufn sched2.
Proof.
  intros Hn. split; intros a Ha; apply Hn, elem_of_app; [left | right]; exact Ha.
Qed.

Lemma run_cons_inv (a : action net) (sched : list (action net))
    (s s'' : system net) (evs'' : list (lookup_event net)) :
  run uty ufn (a :: sched) s = Some (s'', evs'') ->
  exists s' evs evs',
    step uty ufn a s = Some (s', evs)
    /\ run uty ufn sched s' = Some (s'', evs')
    /\ evs'' = evs ++ evs'.
Proof.
  simpl. intros Hrun.
  destruct (step uty ufn a s) as [[s' evs]|]; [|discriminate Hrun].
  destruct (run uty ufn sched s') as [[s3 evs']|] eqn:Hrest;
    [|discriminate Hrun].
  injection Hrun as <- <-. exists s', evs, evs'.
  split; [reflexivity|]. split; [exact Hrest | reflexivity].
Qed.

Lemma run_phase (sched : list (action net)) :
  forall (s s' : system net) (evs : list (lookup_event net)),
    (cleared (sys_unregister s) = true -> grace_invariant uty ufn s) ->
    never_registers_again uty ufn sched ->
    run uty ufn sched s = Some (s', evs) ->
    cleared (sys_unregister s') = true -> grace_invariant uty ufn s'.
Proof.
  induction sched as [|a sched IH]; intros s s' evs Hphase Hn Hrun.
  - simpl in Hrun. injection Hrun as <- <-. exact Hphase.
  - apply never_registers_again_cons in Hn as [Ha Hn].
    apply run_cons_inv in Hrun as (s1 & evs1 & evs2 & Hstep & Hrun & _).
    apply (IH s1 s' evs2); [|exact Hn | exact Hrun].
    apply (step_phase a s s1 evs1 Hphase Ha Hstep).
Qed.

(** A run that starts after the clear: the invariant is kept, every thread
    that ends up holding [ufn] for [uty] held it, in the same call, at the
    start, and every invocation of [ufn] for [uty] is made by a thread that
    held it at the start. *)
Lemma run_after_clear (sched : list (action net)) :
  forall (s s' : system net) (evs : list (lookup_event net)),
    cleared (sys_unregister s) = true ->
    grace_invariant uty ufn s ->
    never_registers_again uty ufn sched ->
    run uty ufn sched s = Some (s', evs) ->
    cleared (sys_unregister s') = true
    /\ (forall (t : nat) (r' : reader net),
          sys_readers s' !! t = Some r' ->
          holds_removed uty ufn r' = true ->
          sys_readers s !! t = Some r')
    /\ (forall e : lookup_event net,
          e ∈ evs -> invokes_removed uty ufn e = true ->
          exists r, sys_readers s !! ev_thread e = Some r
                    /\ holds_removed uty ufn r = true).
Proof.
  induction sched as [|a sched IH]; intros s s' evs Hcl Hinv Hn Hrun.
  - simpl in Hrun. injection Hrun as <- <-.
    split; [exact Hcl|]. split; [auto|].
    intros e He. apply elem_of_nil in He. contradiction.
  - apply never_registers_again_cons in Hn as [Ha Hn].
    apply run_cons_inv in Hrun as (s1 & evs1 & evs2 & Hstep & Hrun & ->).
    destruct (step_after_clear a s s1 evs1 Hcl Hinv Ha Hstep)
      as (Hcl1 & Hinv1 & Hold1 & Hev1).
    destruct (IH s1 s' evs2 Hcl1 Hinv1 Hn Hrun) as (Hcl' & Hold' & Hev').
    split; [exact Hcl'|]. split.
    + intros t r' Hl Hh. apply Hold1; [|exact Hh]. apply Hold'; assumption.
    + intros e He Hinvk. apply elem_of_app in He as [He|He].
      * apply (Hev1 e He Hinvk).
      * destruct (Hev' e He Hinvk) as (r & Hl & Hh).
        exists r. split; [|exact Hh]. apply Hold1; assumption.
Qed.

(** At [UReturned 0] nothing is awaited. *)
Lemma returned_no_holder (s : system net) :
  grace_invariant uty ufn s ->
  sys_unregister s = UReturned 0 ->
  forall (t : nat) (r : reader net),
    sys_readers s !! t = Some r -> holds_removed uty ufn r = false.
Proof.
  intros (_ & _ & Hwait) Hpc t r Hl.
  destruct (holds_removed uty ufn r) eqn:Hh; [|reflexivity].
  exfalso. specialize (Hwait t r Hl Hh). rewrite Hpc in Hwait. exact Hwait.
Qed.

(** C1.  Take any interleaving of lookups, of the steps of one call
    [unregister(uty, ufn)] and of other threads' register and unregister
    calls, in which nobody registers [ufn] for [uty] again, and any point
    [sa] of it at which the call has cleared the slot.  From [sa] on no
    thread comes to hold [ufn] for a lookup of [uty]: a thread about to
    call it later was about to call it, in the same lookup, at [sa]; and
    [ufn] is invoked for [uty] only by threads that at [sa] had read it
    and not yet called it, so a lookup that reads the slot after the clear
    never invokes it while one that read it before may still make its
    call.  If at [sa] the call has returned 0, no thread is left in that
    position, and [ufn] is not invoked for [uty] by any lookup from then
    on. *)
Theorem unregister_grace_period
    (s0 sa sb : system net) (scheda schedb : list (action net))
    (eva evb : list (lookup_event net)) :
  sys_unregister s0 = UCall ->
  never_registers_again uty ufn (scheda ++ schedb) ->
  run uty ufn scheda s0 = Some (sa, eva) ->
  cleared (sys_unregister sa) = true ->
  run uty ufn schedb sa = Some (sb, evb) ->
  (forall (t : nat) (r : reader net),
     sys_readers sb !! t = Some r -> holds_removed uty ufn r = true ->
     sys_readers sa !! t = Some r)
  /\ (forall e : lookup_event net,
        e ∈ evb -> invokes_removed uty ufn e = true ->
        exists r, sys_readers sa !! ev_thread e = Some r
                  /\ holds_removed uty ufn r = true)
  /\ (sys_unregister sa = UReturned 0 ->
      (forall (t : nat) (r : reader net),
         sys_readers sa !! t = Some r -> holds_removed uty ufn r = false)
      /\ (forall e : lookup_event net,
            e ∈ evb -> invokes_removed uty ufn e = false)).
Proof.
  intros Hpc0 Hn Hruna Hcla Hrunb.
  apply never_registers_again_app in Hn as [Hna Hnb].
  assert (Hinva : grace_invariant uty ufn sa).
  { apply (run_phase scheda s0 sa eva); try assumption.
    rewrite Hpc0. discriminate. }
  destruct (run_after_clear schedb sa sb evb Hcla Hinva Hnb Hrunb)
    as (_ & Hold & Hev).
  split; [exact Hold|]. split; [exact Hev|].
  intros Hret.
  pose proof (returned_no_holder sa Hinva Hret) as Hnone.
  split; [exact Hnone|].
  intros e He. destruct (invokes_removed uty ufn e) eqn:Hinvk; [|reflexivity].
  destruct (Hev e He Hinvk) as (r & Hl & Hh).
  rewrite (Hnone _ _ Hl) in Hh. discriminate Hh.
Qed.

End RcuFacts.

(** *** A run on the header values *)

Lemma demo_never_registers_again (sched : list (action unit)) :
  forallb (fun a => negb (registers_again 1 77 a)) sched = true ->
  never_registers_again 1 77 sched.
Proof.
  intros Hall a Ha. apply list_elem_of_In in Ha.
  rewrite forallb_forall in Hall. specialize (Hall a Ha).
  apply negb_true_iff in Hall. exact Hall.
Qed.

(** Thread 0 read the callback before the clear and calls it after the
    clear, while the unregistering thread is inside [synchronize_rcu]. *)
Example in_flight_lookup_finishes :
  @run linux_consts unit demo_code 1 77 demo_until_clear demo_system
  = Some (mk_system [zero_handler; zero_handler]
            [RLoaded tt 7 1 77; RUnlock (-22)] USynchronize, [])
  /\ @run linux_consts unit demo_code 1 77
       (demo_until_clear ++ demo_until_return) demo_system
     = Some (demo_returned, [mk_lookup_event 0 1 (mk_invocation 77 tt 7)]).
Proof. split; reflexivity. Qed.

(** While a thread that was inside its read section when
    [synchronize_rcu] was entered has not unlocked, the unregistering
    thread cannot move. *)
Example synchronize_rcu_blocks :
  @step linux_consts unit demo_code 1 77 AUnregisterStep
    (mk_system [zero_handler; zero_handler]
       [RLoaded tt 7 1 77; RIdle] (UGrace [0%nat]))
  = None.
Proof. reflexivity. Qed.

Lemma unregister_grace_period_witness :
  @run linux_consts unit demo_code 1 77
    (demo_until_clear ++ demo_until_return) demo_system
  = Some (demo_returned, [mk_lookup_event 0 1 (mk_invocation 77 tt 7)])
  /\ @run linux_consts unit demo_code 1 77 demo_after_return demo_returned
     = Some (demo_returned, [])
  /\ (forall (t : nat) (r : reader unit),
        sys_readers demo_returned !! t = Some r ->
        holds_removed 1 77 r = false).
Proof.
  assert (HE : @EINVAL linux_consts <> 0) by by_evaluation.
  split; [reflexivity|]. split; [reflexivity|].
  destruct (@unregister_grace_period linux_consts unit demo_code 1 77 HE
              demo_system demo_returned demo_returned
              (demo_until_clear ++ demo_until_return) demo_after_return
              [mk_lookup_event 0 1 (mk_invocation 77 tt 7)] [])
    as (_ & _ & Hret).
  - reflexivity.
  - apply demo_never_registers_again. reflexivity.
  - reflexivity.
  - reflexivity.
  - reflexivity.
  - destruct (Hret eq_refl) as [Hnone _]. exact Hnone.
Defined.

(** ** Further properties of the registry *)

Section RegistryComposition.

Context `{KernelConsts} {net : Type} `{CallbackTable net}.

Lemma empty_slot_eq (h : l3mdev_handler) :
  empty_slot h -> h = mk_handler L3MDEV_TYPE_UNSPEC NULL.
Proof. destruct h as [t f]. intros [E1 E2]. simpl in *. subst. reflexivity. Qed.

Lemma register_then_unregister (ty : Z) (fn : fnptr)
    (hs : list l3mdev_handler) :
  valid_type ty ->
  (exists h, hs !! Z.to_nat ty = Some h /\ empty_slot h) ->
  (l3mdev_table_lookup_register ty fn hs).1 = 0
  /\ l3mdev_table_lookup_unregister ty fn
       (l3mdev_table_lookup_register ty fn hs).2 = (0, hs).
Proof.
  intros Hv (h & Hh & Hempty).
  pose proof (lookup_lt_Some _ _ _ Hh) as Hlt.
  rewrite register_empty
    by (rewrite ?(list_lookup_total_correct _ _ _ Hh); assumption).
  split; [reflexivity|]. simpl.
  rewrite unregister_match;
    rewrite ?list_lookup_total_insert_eq by exact Hlt; try reflexivity;
    try exact Hv.
  rewrite list_insert_insert_eq, list_insert_id; [reflexivity|].
  rewrite Hh, (empty_slot_eq h Hempty). reflexivity.
Qed.

(** Registering in an empty slot and unregistering the same pair gives the
    array back: both calls return 0 and the second returns the array the
    first was given. *)
Theorem register_unregister_restores (ty : Z) (fn : fnptr)
    (hs : list l3mdev_handler) :
  valid_type ty ->
  (exists h, hs !! Z.to_nat ty = Some h /\ empty_slot h) ->
  (l3mdev_table_lookup_register ty fn hs).1 = 0
  /\ l3mdev_table_lookup_unregister ty fn
       (l3mdev_table_lookup_register ty fn hs).2 = (0, hs).
Proof. apply register_then_unregister. Qed.

(** Unregistering the registered pair and registering it again gives the
    array back. *)
Theorem unregister_register_restores (ty : Z) (fn : fnptr)
    (hs : list l3mdev_handler) :
  valid_type ty ->
  hs !! Z.to_nat ty = Some (mk_handler ty fn) ->
  (l3mdev_table_lookup_unregister ty fn hs).1 = 0
  /\ l3mdev_table_lookup_register ty fn
       (l3mdev_table_lookup_unregister ty fn hs).2 = (0, hs).
Proof.
  intros Hv Hh.
  pose proof (lookup_lt_Some _ _ _ Hh) as Hlt.
  pose proof (list_lookup_total_correct _ _ _ Hh) as Hslot.
  rewrite unregister_match by (rewrite ?Hslot; auto).
  split; [reflexivity|]. simpl.
  rewrite register_empty;
    rewrite ?list_lookup_total_insert_eq by exact Hlt;
    try exact Hv; try (split; reflexivity).
  rewrite list_insert_insert_eq, list_insert_id; [reflexivity | exact Hh].
Qed.

(** After a successful unregister every further unregister for the tag,
    with whatever callback, is refused with [-EINVAL] and changes
    nothing. *)
Theorem unregister_twice_refused (ty : Z) (fn fn' : fnptr)
    (hs : list l3mdev_handler) :
  EINVAL <> 0 ->
  (l3mdev_table_lookup_unregister ty fn hs).1 = 0 ->
  l3mdev_table_lookup_unregister ty fn'
    (l3mdev_table_lookup_unregister ty fn hs).2
  = (- EINVAL, (l3mdev_table_lookup_unregister ty fn hs).2).
Proof.
  intros HE Hres.
  destruct (check_type_cases ty) as [[Hv _]|[Hv _]];
    [|rewrite unregister_invalid in Hres by assumption; simpl in Hres; lia].
  destruct (Z.eq_dec (l3type (hs !!! Z.to_nat ty)) ty) as [E1|E1];
    [|rewrite unregister_mismatch in Hres by auto; simpl in Hres; lia].
  destruct (Z.eq_dec (dev_ifindex_lookup_by_table_id (hs !!! Z.to_nat ty)) fn)
    as [E2|E2];
    [|rewrite unregister_mismatch in Hres by auto; simpl in Hres; lia].
  rewrite (unregister_match ty fn hs Hv E1 E2). simpl.
  apply (unregister_mismatch ty fn' _ HE). left.
  rewrite list_lookup_total_insert_eq
    by (apply matching_slot_in_range; assumption).
  simpl. unfold valid_type in Hv. lia.
Qed.

(** While a callback is registered for a tag, a further register for the
    tag and an unregister naming another callback are both refused, and a
    lookup made after either still invokes the registered callback. *)
Theorem refused_calls_keep_service (ty : Z) (cb fn' : fnptr) (n : net)
    (table_id : Z) (hs : list l3mdev_handler) :
  EINVAL <> 0 ->
  valid_type ty ->
  cb <> NULL ->
  hs !!! Z.to_nat ty = mk_handler ty cb ->
  l3mdev_table_lookup_register ty fn' hs = (- EBUSY, hs)
  /\ (fn' <> cb ->
      l3mdev_table_lookup_unregister ty fn' hs = (- EINVAL, hs))
  /\ l3mdev_ifindex_lookup_by_table_id n table_id ty hs
     = (code cb n table_id, [mk_invocation cb n table_id]).
Proof.
  intros HE Hv Hcb Hslot. split; [|split].
  - apply register_busy; [exact Hv|]. left. rewrite Hslot. reflexivity.
  - intros Hne. apply (unregister_mismatch ty fn' hs HE). right.
    rewrite Hslot. simpl. congruence.
  - rewrite lookup_callback; rewrite ?Hslot; simpl; auto.
Qed.

(** A call for a tag leaves every slot but that tag's as it was, and slot 0
    always; so a lookup for any other tag returns what it returned
    before. *)
Theorem other_slots_untouched (ty : Z) (fn : fnptr)
    (hs : list l3mdev_handler) :
  EINVAL <> 0 ->
  (forall j : nat, j <> Z.to_nat ty \/ j = 0%nat ->
     (l3mdev_table_lookup_register ty fn hs).2 !! j = hs !! j
     /\ (l3mdev_table_lookup_unregister ty fn hs).2 !! j = hs !! j)
  /\ (forall (ty' : Z) (n : net) (table_id : Z), ty' <> ty ->
        l3mdev_ifindex_lookup_by_table_id n table_id ty'
          (l3mdev_table_lookup_register ty fn hs).2
        = l3mdev_ifindex_lookup_by_table_id n table_id ty' hs
        /\ l3mdev_ifindex_lookup_by_table_id n table_id ty'
             (l3mdev_table_lookup_unregister ty fn hs).2
           = l3mdev_ifindex_lookup_by_table_id n table_id ty' hs).
Proof.
  intros HE.
  assert (Hslots : forall j : nat, j <> Z.to_nat ty \/ j = 0%nat ->
     (l3mdev_table_lookup_register ty fn hs).2 !! j = hs !! j
     /\ (l3mdev_table_lookup_unregister ty fn hs).2 !! j = hs !! j).
  { intros j Hj. split.
    - destruct (register_shape ty fn hs HE) as [->|(Hv & _ & ->)];
        [reflexivity|].
      simpl. apply list_lookup_insert_ne.
      unfold valid_type, L3MDEV_TYPE_UNSPEC in Hv. lia.
    - destruct (unregister_shape ty fn hs HE) as [->|(Hv & _ & _ & ->)];
        [reflexivity|].
      simpl. apply list_lookup_insert_ne.
      unfold valid_type, L3MDEV_TYPE_UNSPEC in Hv. lia. }
  split; [exact Hslots|].
  intros ty' n table_id Hne.
  destruct (check_type_cases ty') as [[Hv' _]|[Hv' _]].
  - assert (Hidx : Z.to_nat ty' <> Z.to_nat ty \/ Z.to_nat ty' = 0%nat).
    { destruct (check_type_cases ty) as [[Hv _]|[Hv _]];
        unfold valid_type, L3MDEV_TYPE_UNSPEC in *; lia. }
    destruct (Hslots _ Hidx) as [Hr Hu].
    unfold l3mdev_ifindex_lookup_by_table_id.
    rewrite !list_lookup_total_alt, Hr, Hu. split; reflexivity.
  - rewrite !lookup_invalid by assumption. split; reflexivity.
Qed.

(** A null pointer can be registered: the call returns 0 and occupies the
    slot.  Lookups for the tag then still find no callback, every further
    register for the tag is refused, and unregistering the null pointer
    empties the slot again. *)
Theorem register_null_occupies (ty : Z) (n : net) (table_id : Z)
    (hs : list l3mdev_handler) :
  valid_type ty ->
  (exists h, hs !! Z.to_nat ty = Some h /\ empty_slot h) ->
  let hs1 := (l3mdev_table_lookup_register ty NULL hs).2 in
  (l3mdev_table_lookup_register ty NULL hs).1 = 0
  /\ l3mdev_ifindex_lookup_by_table_id n table_id ty hs1 = (- EINVAL, [])
  /\ (forall fn' : fnptr,
        l3mdev_table_lookup_register ty fn' hs1 = (- EBUSY, hs1))
  /\ l3mdev_table_lookup_unregister ty NULL hs1 = (0, hs).
Proof.
  intros Hv Hslot. cbv zeta.
  destruct (register_then_unregister ty NULL hs Hv Hslot) as [Hres Hback].
  destruct Hslot as (h & Hh & Hempty).
  pose proof (lookup_lt_Some _ _ _ Hh) as Hlt.
  assert (Hnew : (l3mdev_table_lookup_register ty NULL hs).2 !!! Z.to_nat ty
                 = mk_handler ty NULL).
  { rewrite register_empty
      by (rewrite ?(list_lookup_total_correct _ _ _ Hh); assumption).
    simpl. apply list_lookup_total_insert_eq, Hlt. }
  split; [exact Hres|]. split; [|split; [|exact Hback]].
  - apply lookup_no_callback; [exact Hv|]. rewrite Hnew. reflexivity.
  - intros fn'. apply register_busy; [exact Hv|]. left. rewrite Hnew.
    reflexivity.
Qed.

Lemma slot_shape_init (i : nat) (h : l3mdev_handler) :
  l3mdev_handlers_init !! i = Some h -> slot_shape i h.
Proof.
  unfold l3mdev_handlers_init. intros Hh.
  apply lookup_replicate in Hh as [-> _].
  split; [left; reflexivity|]. split; [intros Hn; contradiction|].
  reflexivity.
Qed.

Lemma registry_shape_insert (ty : Z) (h : l3mdev_handler)
    (hs : list l3mdev_handler) :
  valid_type ty ->
  slot_shape (Z.to_nat ty) h ->
  registry_shape hs ->
  registry_shape (<[Z.to_nat ty := h]> hs).
Proof.
  intros Hv Hslot [Hwf Hall]. split.
  - unfold handlers_wf in *. rewrite length_insert. exact Hwf.
  - intros i h' Hh'.
    apply list_lookup_insert_Some in Hh' as [(<- & <- & _)|(_ & Hh')];
      [exact Hslot | apply (Hall i h' Hh')].
Qed.

Lemma registry_shape_call (c : registry_call) (hs : list l3mdev_handler) :
  EINVAL <> 0 -> registry_shape hs -> registry_shape (run_call c hs).
Proof.
  intros HE Hshape. destruct c as [ty fn|ty fn]; simpl.
  - destruct (register_shape ty fn hs HE) as [->|(Hv & _ & ->)];
      [exact Hshape|].
    simpl. apply registry_shape_insert; [exact Hv| |exact Hshape].
    unfold valid_type, L3MDEV_TYPE_UNSPEC in Hv.
    split; [right; simpl; lia|]. split; [intros _; simpl; lia|]. lia.
  - destruct (unregister_shape ty fn hs HE) as [->|(Hv & _ & _ & ->)];
      [exact Hshape|].
    simpl. apply registry_shape_insert; [exact Hv| |exact Hshape].
    unfold valid_type, L3MDEV_TYPE_UNSPEC in Hv.
    split; [left; reflexivity|]. split; [intros Hn; contradiction|]. lia.
Qed.

(** Whatever register and unregister calls are made on the initial array,
    with whatever tags and pointers, the array keeps its size, every slot
    stores either "unspecified" or its own index as tag, a slot holding a
    callback stores its own index, and slot 0 stays zero. *)
Theorem registry_shape_reachable (cs : list registry_call) :
  EINVAL <> 0 ->
  registry_shape (run_calls cs l3mdev_handlers_init).
Proof.
  intros HE.
  assert (Hgen : forall hs, registry_shape hs -> registry_shape (run_calls cs hs)).
  { induction cs as [|c cs IH]; intros hs Hshape; [exact Hshape|].
    simpl. apply IH, registry_shape_call; assumption. }
  apply Hgen. split; [apply handlers_wf_init | apply slot_shape_init].
Qed.

End RegistryComposition.

(** *** On the header values *)

Lemma register_unregister_restores_witness :
  @l3mdev_table_lookup_unregister linux_consts 1 77
    (@l3mdev_table_lookup_register linux_consts 1 77
       (@l3mdev_handlers_init linux_consts)).2
  = (0, @l3mdev_handlers_init linux_consts).
Proof.
  apply (@register_unregister_restores linux_consts 1 77
           (@l3mdev_handlers_init linux_consts)).
  - by_evaluation.
  - exists zero_handler. split; [reflexivity | split; reflexivity].
Defined.

Lemma unregister_register_restores_witness :
  @l3mdev_table_lookup_register linux_consts 1 77
    (@l3mdev_table_lookup_unregister linux_consts 1 77 demo_handlers).2
  = (0, demo_handlers).
Proof.
  apply (@unregister_register_restores linux_consts 1 77 demo_handlers).
  - by_evaluation.
  - reflexivity.
Defined.

Lemma unregister_twice_refused_witness :
  @l3mdev_table_lookup_unregister linux_consts 1 77
    (@l3mdev_table_lookup_unregister linux_consts 1 77 demo_handlers).2
  = (-22, [zero_handler; zero_handler]).
Proof.
  apply (@unregister_twice_refused linux_consts 1 77 77 demo_handlers).
  - by_evaluation.
  - reflexivity.
Defined.

Lemma refused_calls_keep_service_witness :
  @l3mdev_table_lookup_register linux_consts 1 88 demo_handlers
  = (-16, demo_handlers)
  /\ (88 <> 77 ->
      @l3mdev_table_lookup_unregister linux_consts 1 88 demo_handlers
      = (-22, demo_handlers))
  /\ @l3mdev_ifindex_lookup_by_table_id linux_consts unit demo_code tt 7 1
       demo_handlers
     = (42, [mk_invocation 77 tt 7]).
Proof.
  apply (@refused_calls_keep_service linux_consts unit demo_code 1 77 88 tt 7
           demo_handlers).
  - by_evaluation.
  - by_evaluation.
  - by_evaluation.
  - reflexivity.
Defined.

Lemma other_slots_untouched_witness :
  (@l3mdev_table_lookup_register linux_consts 1 88
     (@l3mdev_handlers_init linux_consts)).2 !! 0%nat
  = Some zero_handler.
Proof.
  assert (HE : @EINVAL linux_consts <> 0) by by_evaluation.
  destruct (@other_slots_untouched linux_consts unit demo_code 1 88
              (@l3mdev_handlers_init linux_consts) HE) as [Hslots _].
  destruct (Hslots 0%nat (or_intror eq_refl)) as [Hr _].
  rewrite Hr. reflexivity.
Defined.

Lemma register_null_occupies_witness :
  (@l3mdev_table_lookup_register linux_consts 1 NULL
     (@l3mdev_handlers_init linux_consts)).1 = 0
  /\ @l3mdev_table_lookup_register linux_consts 1 77
       [zero_handler; mk_handler 1 NULL]
     = (-16, [zero_handler; mk_handler 1 NULL]).
Proof.
  destruct (@register_null_occupies linux_consts unit demo_code 1 tt 7
              (@l3mdev_handlers_init linux_consts))
    as (Hres & _ & Hbusy & _).
  - by_evaluation.
  - exists zero_handler. split; [reflexivity | split; reflexivity].
  - split; [exact Hres | apply (Hbusy 77)].
Defined.

Lemma registry_shape_reachable_witness :
  @registry_shape linux_consts
    (@run_calls linux_consts
       [CallRegister 1 NULL; CallRegister 0 77; CallUnregister 1 NULL;
        CallRegister 1 77; CallRegister 2 88]
       (@l3mdev_handlers_init linux_consts)).
Proof.
  apply (@registry_shape_reachable linux_consts). by_evaluation.
Defined.

(** ** Further properties of the resolver *)

Section ResolverExtras.

Context {net dev : Type} `{DeviceModel net dev}.

(** When the loop exits, it exits at the first L3 master of the chain or at
    the end of a chain without one, within the iterations allowed. *)
Lemma master_upper_walk_sound (fuel : nat) :
  forall (dev_ r : option dev),
    master_upper_walk fuel dev_ = Some r ->
    exists k : nat,
      (k <= fuel)%nat /\ nth_upper k dev_ = r /\ no_master_before k dev_
      /\ (r = None \/ exists m, r = Some m /\ netif_is_l3_master m = true).
Proof.
  induction fuel as [|fuel IH]; intros [d|] r Hw; simpl in Hw.
  - destruct (netif_is_l3_master d) eqn:Hm; [|discriminate Hw].
    injection Hw as <-. exists 0%nat. split; [lia|]. split; [reflexivity|].
    split; [intros j Hj; lia|]. right. exists d. split; [reflexivity|exact Hm].
  - injection Hw as <-. exists 0%nat. split; [lia|]. split; [reflexivity|].
    split; [intros j Hj; lia|]. left. reflexivity.
  - destruct (netif_is_l3_master d) eqn:Hm.
    + injection Hw as <-. exists 0%nat. split; [lia|]. split; [reflexivity|].
      split; [intros j Hj; lia|]. right. exists d. split; [reflexivity|exact Hm].
    + destruct (IH _ _ Hw) as (k & Hk & Hnth & Hno & Hstop).
      exists (S k). split; [lia|]. split; [exact Hnth|]. split; [|exact Hstop].
      intros [|j] Hj.
      * exists d. split; [reflexivity | exact Hm].
      * apply (Hno j). lia.
  - injection Hw as <-. exists 0%nat. split; [lia|]. split; [reflexivity|].
    split; [intros j Hj; lia|]. left. reflexivity.
Qed.

(** Whatever the device model, cyclic or not, a value returned by the walk
    is the index of the first L3 master on the chain above the handle, or
    0 when the chain (or the handle) leads to no device: a device that
    is not an L3 master is walked past, never returned. *)
Theorem master_upper_walk_returns_first_master (fuel : nat) (n : net)
    (handle r : Z) :
  l3mdev_master_upper_ifindex_by_index_rcu fuel n handle = Some r ->
  exists k : nat,
    (k <= fuel)%nat
    /\ no_master_before k (dev_get_by_index_rcu n handle)
    /\ ((nth_upper k (dev_get_by_index_rcu n handle) = None /\ r = 0)
        \/ exists m,
             nth_upper k (dev_get_by_index_rcu n handle) = Some m
             /\ netif_is_l3_master m = true /\ r = ifindex m).
Proof.
  unfold l3mdev_master_upper_ifindex_by_index_rcu. intros Hr.
  destruct (master_upper_walk fuel (dev_get_by_index_rcu n handle))
    as [stop|] eqn:Hw; [|discriminate Hr].
  destruct (master_upper_walk_sound _ _ _ Hw) as (k & Hk & Hnth & Hno & Hstop).
  exists k. split; [exact Hk|]. split; [exact Hno|].
  destruct Hstop as [->|(m & -> & Hm)].
  - left. injection Hr as <-. split; [exact Hnth | reflexivity].
  - right. exists m. injection Hr as <-.
    split; [exact Hnth|]. split; [exact Hm | reflexivity].
Qed.

(** For a device that is an L3 master, or an L3 slave whose master (if it
    has one) is an L3 master, and on which the two master accessors agree,
    the walk by index returns within one iteration what
    [l3mdev_master_ifindex_rcu] returns for the device. *)
Theorem master_upper_walk_agrees (fuel : nat) (n : net) (handle : Z)
    (d : dev) :
  dev_get_by_index_rcu n handle = Some d ->
  netdev_master_upper_dev_get d = netdev_master_upper_dev_get_rcu d ->
  netif_is_l3_master d = true
  \/ (netif_is_l3_slave d = true
      /\ forall m, netdev_master_upper_dev_get_rcu d = Some m ->
                   netif_is_l3_master m = true) ->
  (1 <= fuel)%nat ->
  l3mdev_master_upper_ifindex_by_index_rcu fuel n handle
  = Some (l3mdev_master_ifindex_rcu (Some d)).
Proof.
  intros Hd Hsame Hkind Hfuel.
  unfold l3mdev_master_upper_ifindex_by_index_rcu. rewrite Hd.
  destruct fuel as [|fuel]; [lia|]. simpl.
  destruct (netif_is_l3_master d) eqn:Hm; [reflexivity|].
  destruct Hkind as [Hc|[Hs Hup]]; [discriminate Hc|].
  rewrite Hs, Hsame.
  destruct (netdev_master_upper_dev_get_rcu d) as [m|] eqn:Eup.
  - destruct fuel; simpl; rewrite (Hup m eq_refl); reflexivity.
  - destruct fuel; reflexivity.
Qed.

End ResolverExtras.

(** *** On concrete device models *)

Lemma master_upper_walk_returns_first_master_witness :
  exists k : nat,
    (k <= 5)%nat
    /\ @no_master_before unit Z stacked_devices k
         (@dev_get_by_index_rcu unit Z stacked_devices tt 5)
    /\ ((@nth_upper unit Z stacked_devices k
           (@dev_get_by_index_rcu unit Z stacked_devices tt 5) = None
         /\ 100 = 0)
        \/ exists m,
             @nth_upper unit Z stacked_devices k
               (@dev_get_by_index_rcu unit Z stacked_devices tt 5) = Some m
             /\ @netif_is_l3_master unit Z stacked_devices m = true
             /\ 100 = @ifindex unit Z stacked_devices m).
Proof.
  apply (@master_upper_walk_returns_first_master unit Z stacked_devices
           5 tt 5 100).
  reflexivity.
Defined.

Lemma master_upper_walk_agrees_witness :
  @l3mdev_master_upper_ifindex_by_index_rcu unit Z demo_devices 1 tt 5
  = Some (@l3mdev_master_ifindex_rcu unit Z demo_devices (Some 5)).
Proof.
  apply (@master_upper_walk_agrees unit Z demo_devices 1 tt 5 5).
  - reflexivity.
  - reflexivity.
  - right. split; [reflexivity|]. intros m Hm. simpl in Hm.
    injection Hm as <-. reflexivity.
  - lia.
Defined.

(** ** Table identity, link-scope lookup and rule match *)

Section DispatcherFacts.

Context `{KernelConsts} {net dev rest6 dst rest resta : Type}.
Context `{DeviceModel net dev} `{L3mdevOps dev (flowi6 rest6) dst}.

(** A slave has the table of its L3 master. *)
Lemma fib_table_of_slave (d m : dev) :
  netif_is_l3_master d = false ->
  netif_is_l3_slave d = true ->
  netdev_master_upper_dev_get_rcu d = Some m ->
  netif_is_l3_master m = true ->
  l3mdev_fib_table_rcu (Some d) = l3mdev_fib_table_rcu (Some m).
Proof. intros Hm Hs Hup Hmm. simpl. rewrite Hm, Hs, Hup, Hmm. reflexivity. Qed.

(** The master index a handle resolves to selects the same table as the
    handle. *)
Lemma fib_table_of_resolved (n : net) (handle mi : Z) :
  index_consistent -> masters_resolve ->
  resolves_to_master n handle = Some mi ->
  l3mdev_fib_table_by_index n mi = l3mdev_fib_table_by_index n handle.
Proof.
  intros Hidx Hres Hr.
  destruct (resolves_some_inv _ _ _ Hr) as (Hh & Hmi & d & Hd & Hmd).
  destruct (netif_is_l3_master d) eqn:Emaster.
  - rewrite (master_ifindex_of_master d Emaster), (Hidx _ _ _ Hd) in Hmd.
    subst mi. reflexivity.
  - destruct (netif_is_l3_slave d) eqn:Eslave;
      [|rewrite (master_ifindex_of_plain d Emaster Eslave) in Hmd; congruence].
    destruct (netdev_master_upper_dev_get_rcu d) as [m|] eqn:Eup;
      [|rewrite (master_ifindex_of_detached d Emaster Eup) in Hmd; congruence].
    rewrite (master_ifindex_of_slave d m Emaster Eslave Eup) in Hmd.
    destruct (Hres _ _ _ _ Hd Emaster Eslave Eup) as [Hm Hmaster].
    rewrite Hmd in Hm. unfold l3mdev_fib_table_by_index.
    destruct (Z.eqb_spec mi 0) as [E|_]; [contradiction|].
    destruct (Z.eqb_spec handle 0) as [E|_]; [contradiction|].
    rewrite Hm, Hd. symmetry. apply fib_table_of_slave; assumption.
Qed.

(** Rewriting a flow does not change the table that either of its
    interfaces selects: in a device model where indices name the devices
    that carry them and a slave's master is a resolvable L3 master, the
    table of the output interface and the table of the input interface
    are the same after [l3mdev_update_flow] as before. *)
Theorem update_flow_keeps_tables (n : net) (fl : flowi rest) :
  index_consistent -> masters_resolve ->
  l3mdev_fib_table_by_index n (flowi_oif (l3mdev_update_flow n fl))
  = l3mdev_fib_table_by_index n (flowi_oif fl)
  /\ l3mdev_fib_table_by_index n (flowi_iif (l3mdev_update_flow n fl))
     = l3mdev_fib_table_by_index n (flowi_iif fl).
Proof.
  intros Hidx Hres.
  destruct (resolves_to_master n (flowi_oif fl)) as [m|] eqn:Eo.
  - rewrite (update_flow_oif_resolved _ _ _ Eo). simpl.
    split; [apply fib_table_of_resolved; assumption | reflexivity].
  - rewrite (update_flow_oif_unresolved _ _ Eo).
    destruct (resolves_to_master n (flowi_iif fl)) as [m|] eqn:Ei.
    + rewrite (update_flow_iif_resolved _ _ _ Ei). simpl.
      split; [reflexivity | apply fib_table_of_resolved; assumption].
    + rewrite (update_flow_iif_unresolved _ _ Ei). split; reflexivity.
Qed.

(** The test made on each interface either finds an L3 master with a
    table accessor or falls through. *)
Lemma master_with_table_cases (n : net) (handle : Z) :
  (exists d fib_table,
     dev_get_by_index_rcu n handle = Some d
     /\ netif_is_l3_master d = true
     /\ ops_l3mdev_fib_table d = Some fib_table)
  \/ (~ master_with_table n handle
      /\ forall (A : Type) (yes : dev -> (dev -> Z) -> A) (no : A),
           match dev_get_by_index_rcu n handle with
           | Some d =>
               if netif_is_l3_master d then
                 match ops_l3mdev_fib_table d with
                 | Some fib_table => yes d fib_table
                 | None => no
                 end
               else no
           | None => no
           end = no).
Proof.
  unfold master_with_table.
  destruct (dev_get_by_index_rcu n handle) as [d|] eqn:Ed.
  - destruct (netif_is_l3_master d) eqn:Em.
    + destruct (ops_l3mdev_fib_table d) as [f|] eqn:Ef.
      * left. exists d, f. split; [reflexivity|]. split; assumption.
      * right. split; [|reflexivity].
        intros (d' & f' & Hd' & Hm' & Hf'). congruence.
    + right. split; [|reflexivity].
      intros (d' & f' & Hd' & Hm' & Hf'). congruence.
  - right. split; [|reflexivity].
    intros (d' & f' & Hd' & Hm' & Hf'). congruence.
Qed.

(** The three ways out of the rule match. *)
Lemma fib_rule_match_cases (n : net) (fl : flowi rest)
    (arg : fib_lookup_arg resta) :
  (exists d fib_table,
     dev_get_by_index_rcu n (flowi_oif fl) = Some d
     /\ netif_is_l3_master d = true
     /\ ops_l3mdev_fib_table d = Some fib_table
     /\ l3mdev_fib_rule_match n fl arg
        = (1, mk_fib_lookup_arg (fib_table d) (arg_rest arg)))
  \/ (~ master_with_table n (flowi_oif fl)
      /\ exists d fib_table,
           dev_get_by_index_rcu n (flowi_iif fl) = Some d
           /\ netif_is_l3_master d = true
           /\ ops_l3mdev_fib_table d = Some fib_table
           /\ l3mdev_fib_rule_match n fl arg
              = (1, mk_fib_lookup_arg (fib_table d) (arg_rest arg)))
  \/ (~ master_with_table n (flowi_oif fl)
      /\ ~ master_with_table n (flowi_iif fl)
      /\ l3mdev_fib_rule_match n fl arg = (0, arg)).
Proof.
  unfold l3mdev_fib_rule_match. cbv zeta.
  destruct (master_with_table_cases n (flowi_oif fl))
    as [(d & f & Hd & Hm & Hf)|[Hno Hfall]].
  - left. exists d, f. rewrite Hd, Hm, Hf.
    split; [reflexivity|]. split; [reflexivity|]. split; reflexivity.
  - right. rewrite Hfall.
    destruct (master_with_table_cases n (flowi_iif fl))
      as [(d & f & Hd & Hm & Hf)|[Hni Hfall']].
    + left. split; [exact Hno|]. exists d, f. rewrite Hd, Hm, Hf.
      split; [reflexivity|]. split; [reflexivity|]. split; reflexivity.
    + right. split; [exact Hno|]. split; [exact Hni|]. apply Hfall'.
Qed.

(** The rule match returns 0 or 1.  It returns 1 exactly when the device at
    the output interface, or the device at the input interface, is an L3
    master with a table accessor; a slave interface does not match.  On 0
    the lookup argument is returned untouched, and on 1 only its table
    member differs. *)
Theorem fib_rule_match_frame (n : net) (fl : flowi rest)
    (arg : fib_lookup_arg resta) :
  ((l3mdev_fib_rule_match n fl arg).1 = 0
   \/ (l3mdev_fib_rule_match n fl arg).1 = 1)
  /\ ((l3mdev_fib_rule_match n fl arg).1 = 1 <->
      master_with_table n (flowi_oif fl) \/ master_with_table n (flowi_iif fl))
  /\ ((l3mdev_fib_rule_match n fl arg).1 = 0 ->
      (l3mdev_fib_rule_match n fl arg).2 = arg)
  /\ arg_rest (l3mdev_fib_rule_match n fl arg).2 = arg_rest arg.
Proof.
  destruct (fib_rule_match_cases n fl arg)
    as [(d & f & Hd & Hm & Hf & ->)
       |[(Hno & d & f & Hd & Hm & Hf & ->)|(Hno & Hni & ->)]]; simpl.
  - split; [right; reflexivity|].
    split; [|split; [intros E; discriminate E | reflexivity]].
    split; [intros _; left; exists d, f; auto | intros _; reflexivity].
  - split; [right; reflexivity|].
    split; [|split; [intros E; discriminate E | reflexivity]].
    split; [intros _; right; exists d, f; auto | intros _; reflexivity].
  - split; [left; reflexivity|]. split; [|split; [intros _|]; reflexivity].
    split; [intros E; discriminate E | intros [Ho|Hi]; contradiction].
Qed.

(** The output interface has priority: when its device is an L3 master
    with a table accessor the match writes that device's table, whatever
    the input interface is, and for a non-zero output interface this is
    the table [l3mdev_fib_table_by_index] gives for it. *)
Theorem fib_rule_match_output_priority (n : net) (fl : flowi rest)
    (arg : fib_lookup_arg resta) (d : dev) (fib_table : dev -> Z) :
  dev_get_by_index_rcu n (flowi_oif fl) = Some d ->
  netif_is_l3_master d = true ->
  ops_l3mdev_fib_table d = Some fib_table ->
  l3mdev_fib_rule_match n fl arg
  = (1, mk_fib_lookup_arg (fib_table d) (arg_rest arg))
  /\ (flowi_oif fl <> 0 ->
      l3mdev_fib_table_by_index n (flowi_oif fl) = fib_table d).
Proof.
  intros Hd Hm Hf. split.
  - unfold l3mdev_fib_rule_match. rewrite Hd, Hm, Hf. reflexivity.
  - intros Hnz. unfold l3mdev_fib_table_by_index.
    destruct (Z.eqb_spec (flowi_oif fl) 0) as [E|_]; [contradiction|].
    rewrite Hd. simpl. rewrite Hm, Hf. reflexivity.
Qed.

(** Rewriting before matching makes slave interfaces match: when the
    output interface of a flow resolves to a master whose device has a
    table accessor, the rule match on the rewritten flow returns 1 and
    writes the table that [l3mdev_fib_table_by_index] gives for the
    original output interface. *)
Theorem fib_rule_match_after_update (n : net) (fl : flowi rest)
    (arg : fib_lookup_arg resta) (mi : Z) :
  index_consistent -> masters_resolve ->
  resolves_to_master n (flowi_oif fl) = Some mi ->
  (forall d, dev_get_by_index_rcu n mi = Some d ->
             ops_l3mdev_fib_table d <> None) ->
  l3mdev_fib_rule_match n (l3mdev_update_flow n fl) arg
  = (1, mk_fib_lookup_arg (l3mdev_fib_table_by_index n (flowi_oif fl))
          (arg_rest arg)).
Proof.
  intros Hidx Hres Hr Hacc.
  rewrite <- (fib_table_of_resolved n _ mi Hidx Hres Hr).
  rewrite (update_flow_oif_resolved _ _ _ Hr).
  destruct (resolves_some_inv _ _ _ Hr) as (Hh & Hmi & d & Hd & Hmd).
  assert (Hmaster : exists M, dev_get_by_index_rcu n mi = Some M
                              /\ netif_is_l3_master M = true).
  { destruct (netif_is_l3_master d) eqn:Emaster.
    - rewrite (master_ifindex_of_master d Emaster), (Hidx _ _ _ Hd) in Hmd.
      subst mi. exists d. split; assumption.
    - destruct (netif_is_l3_slave d) eqn:Eslave;
        [|rewrite (master_ifindex_of_plain d Emaster Eslave) in Hmd; congruence].
      destruct (netdev_master_upper_dev_get_rcu d) as [m|] eqn:Eup;
        [|rewrite (master_ifindex_of_detached d Emaster Eup) in Hmd; congruence].
      rewrite (master_ifindex_of_slave d m Emaster Eslave Eup) in Hmd.
      destruct (Hres _ _ _ _ Hd Emaster Eslave Eup) as [Hm Hmm].
      rewrite Hmd in Hm. exists m. split; assumption. }
  destruct Hmaster as (M & HM & HMm).
  destruct (ops_l3mdev_fib_table M) as [f|] eqn:Ef;
    [|exfalso; apply (Hacc M HM Ef)].
  unfold l3mdev_fib_rule_match, l3mdev_fib_table_by_index. simpl.
  destruct (Z.eqb_spec mi 0) as [E|_]; [contradiction|].
  rewrite HM. simpl. rewrite HMm, Ef. reflexivity.
Qed.

(** A destination comes only from the link-scope accessor of an L3
    master: the output interface of the flow is set, and the master is
    the device at that interface, or its immediate master when that device
    is a slave. *)
Theorem link_scope_lookup_sound (n : net) (fl6 : flowi6 rest6) (dst_ : dst) :
  l3mdev_link_scope_lookup n fl6 = Some dst_ ->
  flowi6_oif fl6 <> 0
  /\ exists d m link_scope_lookup,
       dev_get_by_index_rcu n (flowi6_oif fl6) = Some d
       /\ ((netif_is_l3_slave d = false /\ m = d)
           \/ (netif_is_l3_slave d = true
               /\ netdev_master_upper_dev_get_rcu d = Some m))
       /\ netif_is_l3_master m = true
       /\ ops_l3mdev_link_scope_lookup m = Some link_scope_lookup
       /\ link_scope_lookup m fl6 = Some dst_.
Proof.
  unfold l3mdev_link_scope_lookup.
  destruct (Z.eqb_spec (flowi6_oif fl6) 0) as [E|E]; simpl; [discriminate|].
  destruct (dev_get_by_index_rcu n (flowi6_oif fl6)) as [d|] eqn:Ed;
    [|discriminate].
  intros Hres. split; [exact E|]. exists d.
  destruct (netif_is_l3_slave d) eqn:Es.
  - destruct (netdev_master_upper_dev_get_rcu d) as [m|] eqn:Eup;
      [|discriminate Hres].
    destruct (netif_is_l3_master m) eqn:Em; [|discriminate Hres].
    destruct (ops_l3mdev_link_scope_lookup m) as [f|] eqn:Ef;
      [|discriminate Hres].
    exists m, f. split; [reflexivity|]. split; [right; split; reflexivity|].
    repeat (split; [assumption || reflexivity|]). exact Hres.
  - destruct (netif_is_l3_master d) eqn:Em; [|discriminate Hres].
    destruct (ops_l3mdev_link_scope_lookup d) as [f|] eqn:Ef;
      [|discriminate Hres].
    exists d, f. split; [reflexivity|]. split; [left; split; reflexivity|].
    repeat (split; [assumption || reflexivity|]). exact Hres.
Qed.

End DispatcherFacts.

(** *** On the demo devices *)

Lemma demo_devices_masters_resolve : @masters_resolve unit Z demo_devices.
Proof.
  intros n i d m _ _ _ Hup. simpl in *.
  destruct (d =? 5); [|discriminate Hup].
  injection Hup as <-. split; reflexivity.
Qed.

(** The scenario of the specification: the table of master 42 is 7, and
    so is the table of its slave 5. *)
Example fib_table_by_index_demo :
  l3mdev_fib_table_by_index (H := demo_devices) (H0 := demo_ops) tt 42 = 7
  /\ l3mdev_fib_table_by_index (H := demo_devices) (H0 := demo_ops) tt 5 = 7
  /\ l3mdev_fib_table_by_index (H := demo_devices) (H0 := demo_ops) tt 9 = 0.
Proof. repeat split. Qed.

Lemma update_flow_keeps_tables_witness :
  l3mdev_fib_table_by_index (H := demo_devices) (H0 := demo_ops) tt
    (flowi_oif (l3mdev_update_flow (H := linux_consts) (H0 := demo_devices)
                  tt (mk_flowi 5 9 0 tt)))
  = l3mdev_fib_table_by_index (H := demo_devices) (H0 := demo_ops) tt 5.
Proof.
  apply (update_flow_keeps_tables (H := linux_consts) (H0 := demo_devices)
           (H1 := demo_ops) tt (mk_flowi 5 9 0 tt)
           demo_devices_index_consistent demo_devices_masters_resolve).
Defined.

Lemma fib_rule_match_frame_witness :
  (l3mdev_fib_rule_match (H := demo_devices) (H0 := demo_ops) tt
     (mk_flowi 5 9 0 tt) (mk_fib_lookup_arg 254 tt)).2
  = mk_fib_lookup_arg 254 tt.
Proof.
  destruct (fib_rule_match_frame (H0 := demo_devices) (H1 := demo_ops) tt
              (mk_flowi 5 9 0 tt) (mk_fib_lookup_arg 254 tt))
    as (_ & _ & Hsame & _).
  apply Hsame. reflexivity.
Defined.

Lemma fib_rule_match_output_priority_witness :
  l3mdev_fib_rule_match (H := demo_devices) (H0 := demo_ops) tt
    (mk_flowi 42 9 0 tt) (mk_fib_lookup_arg 254 tt)
  = (1, mk_fib_lookup_arg 7 tt).
Proof.
  apply (fib_rule_match_output_priority (H0 := demo_devices) (H1 := demo_ops)
           tt (mk_flowi 42 9 0 tt) (mk_fib_lookup_arg 254 tt) 42 (fun _ => 7));
    reflexivity.
Defined.

Lemma fib_rule_match_after_update_witness :
  l3mdev_fib_rule_match (H := demo_devices) (H0 := demo_ops) tt
    (l3mdev_update_flow (H := linux_consts) (H0 := demo_devices) tt
       (mk_flowi 5 0 0 tt))
    (mk_fib_lookup_arg 254 tt)
  = (1, mk_fib_lookup_arg 7 tt).
Proof.
  apply (fib_rule_match_after_update (H := linux_consts) (H0 := demo_devices)
           (H1 := demo_ops) tt (mk_flowi 5 0 0 tt) (mk_fib_lookup_arg 254 tt)
           42 demo_devices_index_consistent demo_devices_masters_resolve).
  - reflexivity.
  - intros d Hd. simpl in Hd. injection Hd as <-. discriminate.
Defined.

Lemma link_scope_lookup_sound_witness :
  exists d m link_scope_lookup,
    @dev_get_by_index_rcu unit Z demo_devices tt 5 = Some d
    /\ ((@netif_is_l3_slave unit Z demo_devices d = false /\ m = d)
        \/ (@netif_is_l3_slave unit Z demo_devices d = true
            /\ @netdev_master_upper_dev_get_rcu unit Z demo_devices d = Some m))
    /\ @netif_is_l3_master unit Z demo_devices m = true
    /\ @ops_l3mdev_link_scope_lookup Z (flowi6 unit) Z demo_ops m
       = Some link_scope_lookup
    /\ link_scope_lookup m (mk_flowi6 5 tt) = Some 1005.
Proof.
  apply (link_scope_lookup_sound (H0 := demo_devices) (H1 := demo_ops) tt
           (mk_flowi6 5 tt) 1005).
  reflexivity.
Defined.
